(** * GRIT climate-risk application: the satellite ingestion pipeline

    A shallow embedding of the two edge functions
    [ingest-satellite-data] and [satellite-webhook], of the
    [satellite_data] table they write to, and of the bounding-box query
    the risk map reads it with.

    Conventions of the embedding.
    - A JavaScript [number] is an exact rational ([Q]); [NaN] is added
      where a number is computed from unvalidated input ([jsnum]).
      IEEE-754 rounding is not part of this model; the coordinate
      arithmetic of the grid, where rounding shows, is also given over
      binary64 (module [IEEE]).
    - Everything the code obtains from its environment ([Math.random],
      the clock, the client library, the database transport, [atob],
      [JSON.parse], [fetch]) is a field of a [Platform]; the functions
      are parametric in it.
    - Effects are threaded through a [World] by a state-and-exception
      monad [Eff]; a [throw] is a [Throw] completion and [try/catch] is
      [try_catch]. *)

From Stdlib Require Import ZArith QArith Qround Qminmax Qabs.
From Stdlib Require Import List String Ascii Bool Arith Lia Lqa.
From Stdlib Require OrdersEx.
From Corelib Require PrimFloat.
Import ListNotations.

Set Implicit Arguments.
Set Warnings "-register-all,-inexact-float".

(* ================================================================== *)
(** * JavaScript values *)

Module JS.

Local Open Scope Q_scope.

(** ** Numbers *)

(** [Math.round]: nearest integer, ties towards +infinity. *)
Definition Math_round (x : Q) : Z := Qfloor (x + 0.5).

Definition Math_min (a b : Q) : Q := Qmin a b.
Definition Math_max (a b : Q) : Q := Qmax a b.

(** The idiom [Math.round(x * 100) / 100]. *)
Definition round2 (x : Q) : Q := inject_Z (Math_round (x * 100)) / 100.

(** A number that may be [NaN]. *)
Inductive jsnum : Type :=
| NaN
| Num (q : Q).

Definition jsnum_add (a b : jsnum) : jsnum :=
  match a, b with
  | Num x, Num y => Num (x + y)
  | _, _ => NaN
  end.

Definition jsnum_sub (a b : jsnum) : jsnum :=
  match a, b with
  | Num x, Num y => Num (x - y)
  | _, _ => NaN
  end.

(** ** JSON documents and values *)

(** What [JSON.parse] returns and [JSON.stringify] prints.  An object
    is the list of its own properties. *)
Inductive json : Type :=
| JNull
| JBool (b : bool)
| JNum (q : Q)
| JStr (s : string)
| JArr (items : list json)
| JObj (props : list (string * json)).

(** A value read from a JSON document: [None] is [undefined]. *)
Definition value : Type := option json.

Definition undefined : value := None.

(** ToBoolean. *)
Definition truthy (v : value) : bool :=
  match v with
  | None => false
  | Some JNull => false
  | Some (JBool b) => b
  | Some (JNum q) => negb (Qeq_bool q 0)
  | Some (JStr s) => negb (s =? "")%string
  | Some (JArr _) => true
  | Some (JObj _) => true
  end.

Fixpoint assoc (k : string) (props : list (string * json)) : value :=
  match props with
  | [] => None
  | (k', v) :: rest => if (k =? k')%string then Some v else assoc k rest
  end.

(** [o.k] on a value that is neither [null] nor [undefined].  None of
    the property names the handlers read exists on a string, number,
    boolean or array, so only objects answer. *)
Definition get (o : json) (k : string) : value :=
  match o with
  | JObj props => assoc k props
  | _ => None
  end.

(** [v?.k] *)
Definition opt_get (v : value) (k : string) : value :=
  match v with
  | None => None
  | Some JNull => None
  | Some o => get o k
  end.

(** An object literal as [JSON.stringify] prints it: properties whose
    value is [undefined] are left out. *)
Fixpoint own_properties (fields : list (string * value)) : list (string * json) :=
  match fields with
  | [] => []
  | (k, None) :: rest => own_properties rest
  | (k, Some v) :: rest => (k, v) :: own_properties rest
  end.

Definition object (fields : list (string * value)) : json :=
  JObj (own_properties fields).

Definition number (n : nat) : json := JNum (inject_Z (Z.of_nat n)).

(** The values a [for ... of] loop visits: the elements of an array,
    the characters of a string; nothing else that JSON can hold is
    iterable. *)
Definition iterate (v : json) : option (list json) :=
  match v with
  | JArr items => Some items
  | JStr s => Some (map (fun c => JStr (String c EmptyString)) (list_ascii_of_string s))
  | _ => None
  end.

(** [v.length] *)
Definition length_of (v : json) : value :=
  match v with
  | JArr items => Some (number (List.length items))
  | JStr s => Some (number (String.length s))
  | other => get other "length"
  end.

(** ** Exceptions *)

Inductive Thrown : Type :=
| ThrownError (message : string)   (* an instance of Error *)
| ThrownOther.                     (* any other thrown value *)

Inductive Completion (A : Type) : Type :=
| Normal (a : A)
| Throw (e : Thrown).

Arguments Normal {A} a.
Arguments Throw {A} e.

End JS.

Import JS.

(* ================================================================== *)
(** * Data model *)

Record RiskIndicators : Type := mkRiskIndicators {
  flood_risk : Z;
  drought_risk : Z;
  wildfire_risk : Z;
  storm_risk : Z
}.

(** [interface SatelliteDataPoint] of the ingestion function. *)
Record SatelliteDataPoint : Type := mkSatelliteDataPoint {
  latitude : jsnum;
  longitude : jsnum;
  acquisition_time : string;
  cloud_coverage : Q;
  vegetation_index : Q;
  water_index : Q;
  temperature : Q;
  risk_indicators : RiskIndicators;
  source : string
}.

(** A row of [public.satellite_data]; [row_id] stands for the generated
    UUID. *)
Record Row : Type := mkRow {
  row_id : nat;
  row_latitude : Q;                 (* DECIMAL(10, 8) NOT NULL *)
  row_longitude : Q;                (* DECIMAL(11, 8) NOT NULL *)
  row_acquisition_time : string;    (* TIMESTAMP WITH TIME ZONE NOT NULL *)
  row_cloud_coverage : Q;           (* DECIMAL(5, 2) *)
  row_vegetation_index : Q;         (* DECIMAL(5, 2) *)
  row_water_index : Q;              (* DECIMAL(5, 2) *)
  row_temperature : Q;              (* DECIMAL(6, 2) *)
  row_risk_indicators : RiskIndicators;  (* JSONB *)
  row_source : string;              (* TEXT DEFAULT 'copernicus' *)
  row_processing_status : string;   (* TEXT DEFAULT 'processed' *)
  row_created_at : string;          (* DEFAULT NOW() *)
  row_updated_at : string           (* DEFAULT NOW() *)
}.

Inductive LogLevel : Type := LOG | ERROR.

(** A console line: the level and the fixed part of the message (the
    interpolated values are not rendered). *)
Definition LogLine : Type := (LogLevel * string)%type.

(** An outgoing [fetch] call. *)
Record FetchCall : Type := mkFetchCall {
  fetch_url : string;
  fetch_method : string;
  fetch_headers : list (string * string);
  fetch_body : json
}.

(** The reply to a [fetch]: the status line and what [response.json()]
    completes with. *)
Record HttpReply : Type := mkHttpReply {
  reply_status : Z;
  reply_json : Completion json
}.

(** Why the database refused an insert. *)
Inductive PostgrestError : Type :=
| Unreachable          (* transport, authorisation or policy failure *)
| NotNullViolation     (* a NaN coordinate is serialised as null *)
| NumericOverflow.     (* a value does not fit its DECIMAL column *)

(* ================================================================== *)
(** * The world the functions run in *)

Record World : Type := mkWorld {
  random_calls : nat;            (* calls of Math.random so far *)
  clock_reads : nat;             (* evaluations of new Date() so far *)
  insert_log : list bool;        (* outcome of every insert statement, oldest first *)
  satellite_data : list Row;     (* the table *)
  fetch_log : list FetchCall;    (* every fetch issued, oldest first *)
  console : list LogLine         (* oldest first *)
}.

Record Platform : Type := mkPlatform {
  (** the value of the n-th call of [Math.random] *)
  Math_random : nat -> Q;
  (** [new Date().toISOString()] at the n-th reading of the clock *)
  Date_toISOString : nat -> string;
  Deno_env_get : string -> option string;
  (** [createClient(url, key)] of supabase-js: the client, or what it throws *)
  createClient : option string -> option string -> Completion unit;
  (** does the n-th insert statement reach the table and pass its policies *)
  db_reachable : nat -> bool;
  (** [NOW()] of the database during the n-th insert statement *)
  db_now : nat -> string;
  (** ToNumber on strings, arrays and objects *)
  ToNumber_other : json -> jsnum;
  (** [atob] applied to a value (it is converted to a string first) *)
  atob : value -> Completion string;
  JSON_parse : string -> Completion json;
  fetch : FetchCall -> World -> World * Completion HttpReply
}.

(** ToNumber. *)
Definition ToNumber (P : Platform) (v : value) : jsnum :=
  match v with
  | None => NaN
  | Some JNull => Num 0
  | Some (JBool true) => Num 1
  | Some (JBool false) => Num 0
  | Some (JNum q) => Num q
  | Some other => ToNumber_other P other
  end.

(* ================================================================== *)
(** * The effect monad *)

Definition Eff (A : Type) : Type := World -> World * Completion A.

Definition ret {A} (a : A) : Eff A := fun w => (w, Normal a).

Definition throw {A} (e : Thrown) : Eff A := fun w => (w, Throw e).

Definition bind {A B} (m : Eff A) (k : A -> Eff B) : Eff B :=
  fun w =>
    match m w with
    | (w', Normal a) => k a w'
    | (w', Throw e) => (w', Throw e)
    end.

Definition try_catch {A} (body : Eff A) (handler : Thrown -> Eff A) : Eff A :=
  fun w =>
    match body w with
    | (w', Normal a) => (w', Normal a)
    | (w', Throw e) => handler e w'
    end.

Declare Scope eff_scope.
Delimit Scope eff_scope with eff.
Notation "x <- m ;; k" := (bind m (fun x => k))
  (at level 61, m at next level, right associativity) : eff_scope.
Notation "m ;; k" := (bind m (fun _ => k))
  (at level 61, right associativity) : eff_scope.
Local Open Scope eff_scope.

(** Lift a completion computed outside the monad ([await] of a promise). *)
Definition await {A} (c : Completion A) : Eff A := fun w => (w, c).

Definition new_TypeError {A} (message : string) : Eff A :=
  throw (ThrownError message).

(** [v.k]: reading a property of [null] or [undefined] throws. *)
Definition member (v : value) (k : string) : Eff value :=
  match v with
  | None => new_TypeError "Cannot read properties of undefined"
  | Some JNull => new_TypeError "Cannot read properties of null"
  | Some o => ret (get o k)
  end.

Definition console_log (line : string) : Eff unit :=
  fun w => (mkWorld (random_calls w) (clock_reads w) (insert_log w)
              (satellite_data w) (fetch_log w) (console w ++ [(LOG, line)]),
            Normal tt).

Definition console_error (line : string) : Eff unit :=
  fun w => (mkWorld (random_calls w) (clock_reads w) (insert_log w)
              (satellite_data w) (fetch_log w) (console w ++ [(ERROR, line)]),
            Normal tt).

Definition random (P : Platform) : Eff Q :=
  fun w => (mkWorld (S (random_calls w)) (clock_reads w) (insert_log w)
              (satellite_data w) (fetch_log w) (console w),
            Normal (Math_random P (random_calls w))).

Definition now_ISO (P : Platform) : Eff string :=
  fun w => (mkWorld (random_calls w) (S (clock_reads w)) (insert_log w)
              (satellite_data w) (fetch_log w) (console w),
            Normal (Date_toISOString P (clock_reads w))).

Definition do_fetch (P : Platform) (call : FetchCall) : Eff HttpReply :=
  fun w => fetch P call
             (mkWorld (random_calls w) (clock_reads w) (insert_log w)
                (satellite_data w) (fetch_log w ++ [call]) (console w)).

(** [for (const x of xs) body], with the variables the body assigns
    carried as [acc]. *)
Fixpoint for_of {A S} (xs : list A) (body : A -> S -> Eff S) (acc : S) : Eff S :=
  match xs with
  | [] => ret acc
  | x :: rest => acc' <- body x acc ;; for_of rest body acc'
  end.

(** [for (let i = 0; i < n; i++) body] *)
Definition for_range {S} (n : nat) (body : nat -> S -> Eff S) (acc : S) : Eff S :=
  for_of (seq 0 n) body acc.

(** [a || b] and [a && b] on values. *)
Definition js_or (a b : value) : value := if truthy a then a else b.
Definition js_and (a b : value) : value := if truthy a then b else a.

(* ================================================================== *)
(** * The [satellite_data] table *)

Module Storage.

Local Open Scope Q_scope.

(** NUMERIC rounds half away from zero. *)
Definition round_half_away (q : Q) : Z :=
  if Qle_bool 0 q then Qfloor (q + 0.5) else (- Qfloor (- q + 0.5))%Z.

(** Storing [q] in a DECIMAL(precision, scale) column: the value is
    rounded to [scale] fractional digits; it is refused when the
    rounded value needs more than [precision] digits. *)
Definition decimal (precision scale : nat) (q : Q) : option Q :=
  let unit := (10 ^ Z.of_nat scale)%Z in
  let n := round_half_away (q * inject_Z unit) in
  if (Z.abs n <? 10 ^ Z.of_nat precision)%Z
  then Some (inject_Z n / inject_Z unit)
  else None.

(** One element of the inserted array as a row of the table. *)
Definition to_row (id : nat) (now : string) (d : SatelliteDataPoint)
  : PostgrestError + Row :=
  match latitude d, longitude d with
  | Num lat, Num lng =>
      match decimal 10 8 lat, decimal 11 8 lng,
            decimal 5 2 (cloud_coverage d), decimal 5 2 (vegetation_index d),
            decimal 5 2 (water_index d), decimal 6 2 (temperature d) with
      | Some lat', Some lng', Some cc, Some vi, Some wi, Some t =>
          inr (mkRow id lat' lng' (acquisition_time d) cc vi wi t
                 (risk_indicators d) (source d) "processed" now now)
      | _, _, _, _, _, _ => inl NumericOverflow
      end
  | _, _ => inl NotNullViolation
  end.

(** A bulk insert is one statement: every row is stored or none is. *)
Fixpoint to_rows (id : nat) (now : string) (data : list SatelliteDataPoint)
  : PostgrestError + list Row :=
  match data with
  | [] => inr []
  | d :: rest =>
      match to_row id now d with
      | inl e => inl e
      | inr r =>
          match to_rows (S id) now rest with
          | inl e => inl e
          | inr rows => inr (r :: rows)
          end
      end
  end.

(** [supabase.from('satellite_data').insert(data)]: resolves to
    [{ error }], it does not throw. *)
Definition insert (P : Platform) (data : list SatelliteDataPoint)
  : Eff (option PostgrestError) :=
  fun w =>
    let n := List.length (insert_log w) in
    let outcome :=
      if db_reachable P n
      then to_rows (List.length (satellite_data w)) (db_now P n) data
      else inl Unreachable in
    match outcome with
    | inr rows =>
        (mkWorld (random_calls w) (clock_reads w) (insert_log w ++ [true])
           (satellite_data w ++ rows) (fetch_log w) (console w),
         Normal None)
    | inl e =>
        (mkWorld (random_calls w) (clock_reads w) (insert_log w ++ [false])
           (satellite_data w) (fetch_log w) (console w),
         Normal (Some e))
    end.

(** [.gte('latitude', south).lte('latitude', north)
     .gte('longitude', west).lte('longitude', east)] *)
Definition in_box (south north west east : Q) (r : Row) : bool :=
  Qle_bool south (row_latitude r) && Qle_bool (row_latitude r) north &&
  Qle_bool west (row_longitude r) && Qle_bool (row_longitude r) east.

(** [.order('acquisition_time', { ascending: false })]; ISO-8601
    strings of one format order as their instants do. *)
Fixpoint insert_desc (r : Row) (sorted : list Row) : list Row :=
  match sorted with
  | [] => [r]
  | r' :: rest =>
      if (row_acquisition_time r' <=? row_acquisition_time r)%string
      then r :: sorted
      else r' :: insert_desc r rest
  end.

Definition order_desc (rows : list Row) : list Row :=
  fold_right insert_desc [] rows.

(** The bounding-box query of the map and of the README. *)
Definition select_box (south north west east : Q) (table : list Row) : list Row :=
  firstn 100 (order_desc (filter (in_box south north west east) table)).

End Storage.

(* ================================================================== *)
(** * The ingestion function ([ingest-satellite-data]) *)

Record Request : Type := mkRequest {
  method : string;
  (** what [await req.json()] completes with *)
  json_body : Completion json
}.

Record Response : Type := mkResponse {
  status : Z;
  headers : list (string * string);
  body : option json
}.

Definition errorMessage (error : Thrown) : string :=
  match error with
  | ThrownError message => message
  | ThrownOther => "Unknown error occurred"
  end.

Module Ingest.

Local Open Scope Q_scope.

Definition corsHeaders : list (string * string) :=
  [("Access-Control-Allow-Origin", "*");
   ("Access-Control-Allow-Headers",
    "authorization, x-client-info, apikey, content-type")]%string.

Definition json_headers : list (string * string) :=
  corsHeaders ++ [("Content-Type", "application/json")]%string.

Definition getCopernicusToken : Eff string :=
  console_log "Using demo mode for satellite data" ;;
  ret "demo-mode"%string.

Definition gridSize : nat := 7.
Definition radius : Q := 0.045.
Definition step : Q := (radius * 2) / (inject_Z (Z.of_nat gridSize) - 1).

(** A loop counter used as a number. *)
Definition of_nat (i : nat) : Q := inject_Z (Z.of_nat i).

(** The object pushed for lattice point ([i], [j]): the body of the
    inner loop, with the five values of [Math.random] it draws (in
    the order of the calls) and the clock reading as arguments. *)
Definition dataPoint (lat lng : jsnum) (i j : nat) (r1 r2 r3 r4 r5 : Q)
  (acquired : string) : SatelliteDataPoint :=
  let pointLat := jsnum_add (jsnum_sub lat (Num radius)) (Num (of_nat i * step)) in
  let pointLng := jsnum_add (jsnum_sub lng (Num radius)) (Num (of_nat j * step)) in
  let cloudCoverage := r1 * 30 in
  let vegetationIndex := 0.2 + r2 * 0.6 in
  let waterIndex := -0.3 + r3 * 0.5 in
  let temperature := 15 + r4 * 15 in
  let floodRisk :=
    Math_min 100 (Math_max 0 ((waterIndex + 0.3) * 100 + (100 - cloudCoverage) * 0.3)) in
  let droughtRisk :=
    Math_min 100 (Math_max 0 ((1 - vegetationIndex) * 100)) in
  let wildfireRisk :=
    Math_min 100 (Math_max 0 (temperature * 2 + (1 - vegetationIndex) * 50)) in
  let stormRisk :=
    Math_min 100 (Math_max 0 (cloudCoverage * 2 + r5 * 30)) in
  {| latitude := pointLat;
     longitude := pointLng;
     acquisition_time := acquired;
     cloud_coverage := round2 cloudCoverage;
     vegetation_index := round2 vegetationIndex;
     water_index := round2 waterIndex;
     temperature := round2 temperature;
     risk_indicators :=
       {| flood_risk := Math_round floodRisk;
          drought_risk := Math_round droughtRisk;
          wildfire_risk := Math_round wildfireRisk;
          storm_risk := Math_round stormRisk |};
     source := "copernicus-simulated" |}.

Definition fetchSatelliteData (P : Platform) (lat lng : jsnum) (token : string)
  : Eff (list SatelliteDataPoint) :=
  console_log "Fetching satellite data for coordinates" ;;
  dataPoints <-
    for_range gridSize (fun i dataPoints =>
      for_range gridSize (fun j dataPoints =>
        r1 <- random P ;;
        r2 <- random P ;;
        r3 <- random P ;;
        r4 <- random P ;;
        r5 <- random P ;;
        acquired <- now_ISO P ;;
        ret (dataPoints ++ [dataPoint lat lng i j r1 r2 r3 r4 r5 acquired]))
        dataPoints)
      [] ;;
  console_log "Generated satellite data points" ;;
  ret dataPoints.

Definition location (lat lng : Q) : json :=
  JObj [("lat", JNum lat); ("lng", JNum lng)]%string.

Definition defaultLocations : json :=
  JArr [ location 40.7128 (-74.0060);    (* New York *)
         location 34.0522 (-118.2437);   (* Los Angeles *)
         location 29.7604 (-95.3698);    (* Houston *)
         location 25.7617 (-80.1918);    (* Miami *)
         location 37.7749 (-122.4194) ]. (* San Francisco *)

(** [locations || (latitude && longitude ? [{lat, lng}] : defaultLocations)] *)
Definition locationsToProcess (latitude longitude locations : value) : value :=
  js_or locations
    (if truthy (js_and latitude longitude)
     then Some (JArr [object [("lat", latitude); ("lng", longitude)]%string])
     else Some defaultLocations).

(** The values a [for ... of] over [v] visits; it throws when [v] is
    not iterable. *)
Definition iterator (v : value) : Eff (list json) :=
  match v with
  | None => new_TypeError "undefined is not iterable"
  | Some j =>
      match iterate j with
      | Some items => ret items
      | None => new_TypeError "locationsToProcess is not iterable"
      end
  end.

(** [v.length] *)
Definition length_prop (v : value) : Eff value :=
  match v with
  | None => new_TypeError "Cannot read properties of undefined"
  | Some JNull => new_TypeError "Cannot read properties of null"
  | Some j => ret (length_of j)
  end.

(** The body of the loop over [locationsToProcess]; it returns the
    new value of [totalInserted].  The coordinates reach the
    arithmetic of [fetchSatelliteData] through ToNumber. *)
Definition process (P : Platform) (token : string)
  (location : json) (totalInserted : nat) : Eff nat :=
  lat <- member (Some location) "lat" ;;
  lng <- member (Some location) "lng" ;;
  satelliteData <- fetchSatelliteData P (ToNumber P lat) (ToNumber P lng) token ;;
  error <- Storage.insert P satelliteData ;;
  match error with
  | Some _ =>
      console_error "Error inserting satellite data for" ;;
      ret totalInserted
  | None =>
      console_log "Inserted satellite data points for" ;;
      ret (totalInserted + List.length satelliteData)%nat
  end.

(** The body of the [try] block. *)
Definition ingest (P : Platform) (req : Request) : Eff Response :=
  request <- await (json_body req) ;;
  trigger <- member (Some request) "trigger" ;;
  source <- member (Some request) "source" ;;
  latitude <- member (Some request) "latitude" ;;
  longitude <- member (Some request) "longitude" ;;
  locations <- member (Some request) "locations" ;;
  console_log "Satellite data ingestion triggered by" ;;
  let supabaseUrl := Deno_env_get P "SUPABASE_URL" in
  let supabaseKey := Deno_env_get P "SUPABASE_SERVICE_ROLE_KEY" in
  await (createClient P supabaseUrl supabaseKey) ;;
  token <- getCopernicusToken ;;
  let toProcess := locationsToProcess latitude longitude locations in
  items <- iterator toProcess ;;
  totalInserted <- for_of items (process P token) 0%nat ;;
  locationsProcessed <- length_prop toProcess ;;
  timestamp <- now_ISO P ;;
  let response :=
    object [("success", Some (JBool true));
            ("message", Some (JStr "Satellite data ingestion complete"));
            ("trigger", trigger);
            ("source", source);
            ("locationsProcessed", locationsProcessed);
            ("dataPointsInserted", Some (number totalInserted));
            ("timestamp", Some (JStr timestamp))]%string in
  console_log "Satellite ingestion summary:" ;;
  ret (mkResponse 200 json_headers (Some response)).

(** The [catch] block. *)
Definition on_error (P : Platform) (error : Thrown) : Eff Response :=
  console_error "Error in ingest-satellite-data function:" ;;
  timestamp <- now_ISO P ;;
  ret (mkResponse 500 json_headers
         (Some (object [("success", Some (JBool false));
                        ("error", Some (JStr (errorMessage error)));
                        ("timestamp", Some (JStr timestamp))]%string))).

(** The function passed to [serve]. *)
Definition serve (P : Platform) (req : Request) : Eff Response :=
  if (method req =? "OPTIONS")%string
  then ret (mkResponse 200 corsHeaders None)
  else try_catch (ingest P req) (on_error P).

End Ingest.

(* ================================================================== *)
(** * The grid's coordinate arithmetic over binary64 *)

(** The same expressions as in [Ingest.dataPoint], computed as
    JavaScript computes them: every number, the loop counter included,
    is an IEEE-754 double and every operation rounds to nearest. *)
Module IEEE.

Import PrimFloat.
Local Open Scope float_scope.

Definition gridSize : float := 7.
Definition radius : float := 0.045.
Definition step : float := (radius * 2) / (gridSize - 1).

(** The loop counter after [i] increments from 0. *)
Fixpoint counter (i : nat) : float :=
  match i with
  | O => 0
  | S k => counter k + 1
  end.

(** [lat - radius + (i * step)], also the expression of [pointLng]. *)
Definition pointLat (lat : float) (i : nat) : float :=
  lat - radius + (counter i * step).



End IEEE.

(* ================================================================== *)
(** * The webhook ([satellite-webhook]) *)

Module Webhook.

Definition corsHeaders : list (string * string) :=
  [("Access-Control-Allow-Origin", "*");
   ("Access-Control-Allow-Headers",
    "authorization, x-client-info, apikey, content-type")]%string.

Definition json_headers : list (string * string) :=
  corsHeaders ++ [("Content-Type", "application/json")]%string.

(** [`${v}`] of an environment variable. *)
Definition template (v : option string) : string :=
  match v with
  | Some s => s
  | None => "undefined"
  end.

(** The body of the [try] block. *)
Definition relay (P : Platform) (req : Request) : Eff Response :=
  pubsubMessage <- await (json_body req) ;;
  console_log "Received Google Cloud Pub/Sub webhook:" ;;
  message <- member (Some pubsubMessage) "message" ;;
  (if negb (truthy message)
   then throw (ThrownError "Invalid Pub/Sub message format")
   else ret tt) ;;
  data <- member message "data" ;;
  decodedData <- await (atob P data) ;;
  messageData <- await (JSON_parse P decodedData) ;;
  console_log "Decoded Pub/Sub data:" ;;
  eventType <- member (Some messageData) "eventType" ;;
  satellite <- member (Some messageData) "satellite" ;;
  location <- member (Some messageData) "location" ;;
  acquisitionTime <- member (Some messageData) "acquisitionTime" ;;
  severity <- member (Some messageData) "severity" ;;
  console_log "Processing satellite event" ;;
  console_log "Location" ;;
  console_log "Severity" ;;
  let supabaseUrl := Deno_env_get P "SUPABASE_URL" in
  let supabaseKey := Deno_env_get P "SUPABASE_SERVICE_ROLE_KEY" in
  await (createClient P supabaseUrl supabaseKey) ;;
  let ingestUrl := (template supabaseUrl ++ "/functions/v1/ingest-satellite-data")%string in
  ingestResponse <-
    do_fetch P
      {| fetch_url := ingestUrl;
         fetch_method := "POST";
         fetch_headers :=
           [("Authorization", "Bearer " ++ template supabaseKey);
            ("Content-Type", "application/json")]%string;
         fetch_body :=
           object [("trigger", Some (JStr "pubsub"));
                   ("source", Some (JStr "google-cloud"));
                   ("latitude", opt_get location "latitude");
                   ("longitude", opt_get location "longitude");
                   ("eventType", eventType);
                   ("satellite", satellite);
                   ("severity", severity)]%string |} ;;
  ingestResult <- await (reply_json ingestResponse) ;;
  console_log "Satellite data ingestion triggered:" ;;
  pubsub_message_id <- member message "messageId" ;;
  pubsub_publish_time <- member message "publishTime" ;;
  processed_at <- now_ISO P ;;
  console_log "Event processing complete:" ;;
  messageId <- member message "messageId" ;;
  dataPointsProcessed <- member (Some ingestResult) "dataPointsInserted" ;;
  ret (mkResponse 200 json_headers
         (Some (object [("success", Some (JBool true));
                        ("message", Some (JStr "Satellite event processed successfully"));
                        ("messageId", messageId);
                        ("eventType", eventType);
                        ("dataPointsProcessed", dataPointsProcessed)]%string))).

(** The [catch] block: the error is reported in the body of a 200. *)
Definition on_error (P : Platform) (error : Thrown) : Eff Response :=
  console_error "Error in satellite-webhook function:" ;;
  timestamp <- now_ISO P ;;
  ret (mkResponse 200 json_headers
         (Some (object [("success", Some (JBool false));
                        ("error", Some (JStr (errorMessage error)));
                        ("timestamp", Some (JStr timestamp))]%string))).

(** The function passed to [serve]. *)
Definition serve (P : Platform) (req : Request) : Eff Response :=
  if (method req =? "OPTIONS")%string
  then ret (mkResponse 200 corsHeaders None)
  else try_catch (relay P req) (on_error P).

End Webhook.

(* ================================================================== *)
(** * The deployment: the webhook's [fetch] reaches the ingestion function *)

(** The ingestion function as the server behind [fetch]: the request
    body is the JSON that was sent, the reply carries the status and
    the JSON body of the response. *)
Definition ingest_endpoint (P : Platform) (call : FetchCall) : World -> World * Completion HttpReply :=
  fun w =>
    match Ingest.serve P (mkRequest (fetch_method call) (Normal (fetch_body call))) w with
    | (w', Normal response) =>
        (w', Normal (mkHttpReply (status response)
                       (match body response with
                        | Some j => Normal j
                        | None => Throw (ThrownError "Unexpected end of JSON input")
                        end)))
    | (w', Throw e) => (w', Throw e)
    end.

Definition with_fetch (P : Platform)
  (f : FetchCall -> World -> World * Completion HttpReply) : Platform :=
  mkPlatform (Math_random P) (Date_toISOString P) (Deno_env_get P) (createClient P)
    (db_reachable P) (db_now P) (ToNumber_other P) (atob P) (JSON_parse P) f.

Definition deployed (P : Platform) : Platform := with_fetch P (ingest_endpoint P).

(* ================================================================== *)
(** * The risk map's query ([RiskMap.tsx]) *)

Module RiskMap.

Local Open Scope Q_scope.

(** The rows the map's [fetchSatelliteData] effect receives for a map
    centred on ([latitude], [longitude]). *)
Definition fetchSatelliteData (latitude longitude : Q) (table : list Row) : list Row :=
  Storage.select_box (latitude - 0.05) (latitude + 0.05)
                     (longitude - 0.05) (longitude + 0.05) table.






End RiskMap.

(** The world before anything has run. *)
Definition initial_world : World := mkWorld 0 0 [] [] [] [].

(* ================================================================== *)
(** * A concrete platform, for running the model *)

Module Demo.

Local Open Scope string_scope.

Definition sample_event : json :=
  JObj [("eventType", JStr "new_sentinel_data");
        ("satellite", JStr "Sentinel-2");
        ("location", JObj [("latitude", JNum 40.7128); ("longitude", JNum (-74.006))]);
        ("severity", JStr "high")].

Definition sample_event_text : string := "sample-event".

Definition platform : Platform :=
  {| Math_random := fun n => Z.of_nat (n mod 10) # 10;
     Date_toISOString := fun _ => "2025-11-09T12:00:00.000Z";
     Deno_env_get := fun name =>
       if name =? "SUPABASE_URL" then Some "https://project.supabase.co"
       else if name =? "SUPABASE_SERVICE_ROLE_KEY" then Some "service-role-key"
       else None;
     createClient := fun url key =>
       match url, key with
       | Some _, Some _ => Normal tt
       | None, _ => Throw (ThrownError "supabaseUrl is required.")
       | _, None => Throw (ThrownError "supabaseKey is required.")
       end;
     db_reachable := fun _ => true;
     db_now := fun _ => "2025-11-09T12:00:01.000Z";
     ToNumber_other := fun _ => NaN;
     atob := fun v =>
       match v with
       | Some (JStr s) => Normal s
       | _ => Throw (ThrownError "Failed to decode base64")
       end;
     JSON_parse := fun s =>
       if s =? sample_event_text then Normal sample_event
       else if s =? "null" then Normal JNull
       else Throw (ThrownError "Unexpected token");
     fetch := fun _ w => (w, Throw (ThrownError "error sending request")) |}.

Definition post (j : json) : Request := mkRequest "POST" (Normal j).

(** A deployment whose ingestion endpoint answers with the JSON
    document [null]. *)
Definition null_reply : Platform :=
  with_fetch platform (fun _ w => (w, Normal (mkHttpReply 200 (Normal JNull)))).

(** [{"trigger":"manual","source":"api","latitude":0,"longitude":-74.006}] *)
Definition equator_request : json :=
  JObj [("trigger", JStr "manual"); ("source", JStr "api");
        ("latitude", JNum 0); ("longitude", JNum (-74.006))].

Definition envelope (data : string) : json :=
  JObj [("message", JObj [("data", JStr data);
                          ("messageId", JStr "1");
                          ("publishTime", JStr "2025-11-09T12:00:00Z")]);
        ("subscription", JStr "satellite-webhook-subscription")].

End Demo.

(* ================================================================== *)
(** * Vocabulary of the specifications *)

Local Open Scope Q_scope.

(** [clamp(lo, hi, x)] of the specification. *)
Definition clamp (lo hi x : Q) : Q := Math_min hi (Math_max lo x).

(** [Math.random] returns a number in [0, 1). *)
Definition unit_random (P : Platform) : Prop :=
  forall n, 0 <= Math_random P n /\ Math_random P n < 1.

(** The world after [randoms] more calls of [Math.random] and [clocks]
    more readings of the clock. *)
Definition drew (randoms clocks : nat) (w : World) : World :=
  mkWorld (randoms + random_calls w) (clocks + clock_reads w) (insert_log w)
    (satellite_data w) (fetch_log w) (console w).

Definition logged (lines : list LogLine) (w : World) : World :=
  mkWorld (random_calls w) (clock_reads w) (insert_log w)
    (satellite_data w) (fetch_log w) (console w ++ lines).

(** The point generated for lattice position ([i], [j]) when its first
    draw is call number [n] of [Math.random] and its time stamp is
    reading number [c] of the clock. *)
Definition cell (P : Platform) (lat lng : jsnum) (n c i j : nat) : SatelliteDataPoint :=
  Ingest.dataPoint lat lng i j
    (Math_random P n) (Math_random P (1 + n)) (Math_random P (2 + n))
    (Math_random P (3 + n)) (Math_random P (4 + n)) (Date_toISOString P c).

(** Row [i] of the lattice and the whole lattice, in generation order. *)
Definition lattice_row (P : Platform) (lat lng : jsnum) (n c i : nat)
  : list SatelliteDataPoint :=
  map (fun j => cell P lat lng (5 * (Ingest.gridSize * i + j) + n)
                  (Ingest.gridSize * i + j + c) i j)
      (seq 0 Ingest.gridSize).

Definition lattice (P : Platform) (lat lng : jsnum) (n c : nat)
  : list SatelliteDataPoint :=
  List.concat (map (lattice_row P lat lng n c) (seq 0 Ingest.gridSize)).

(** The bounds of one generated point or stored row. *)
Definition risk_in_range (r : RiskIndicators) : Prop :=
  (0 <= flood_risk r <= 100)%Z /\ (0 <= drought_risk r <= 100)%Z /\
  (0 <= wildfire_risk r <= 100)%Z /\ (0 <= storm_risk r <= 100)%Z.

Definition point_in_range (p : SatelliteDataPoint) : Prop :=
  (0 <= cloud_coverage p /\ cloud_coverage p <= 30) /\
  (0.2 <= vegetation_index p /\ vegetation_index p <= 0.8) /\
  (-0.3 <= water_index p /\ water_index p <= 0.2) /\
  (15 <= temperature p /\ temperature p <= 30) /\
  risk_in_range (risk_indicators p).

Definition row_in_range (r : Row) : Prop :=
  (0 <= row_cloud_coverage r /\ row_cloud_coverage r <= 30) /\
  (0.2 <= row_vegetation_index r /\ row_vegetation_index r <= 0.8) /\
  (-0.3 <= row_water_index r /\ row_water_index r <= 0.2) /\
  (15 <= row_temperature r /\ row_temperature r <= 30) /\
  risk_in_range (row_risk_indicators r).


(** The relation between an inserted point and its row. *)
Definition stored_as (now : string) (d : SatelliteDataPoint) (r : Row) : Prop :=
  exists id, Storage.to_row id now d = inr r.

(** The console lines one location leaves, by the outcome of its insert. *)
Definition location_lines (ok : bool) : list LogLine :=
  [(LOG, "Fetching satellite data for coordinates"%string);
   (LOG, "Generated satellite data points"%string);
   if ok then (LOG, "Inserted satellite data points for"%string)
   else (ERROR, "Error inserting satellite data for"%string)].

(** The number of successful inserts among the outcomes. *)
Definition successes (outcomes : list bool) : nat :=
  List.length (filter (fun ok => ok) outcomes).

Definition failures (outcomes : list bool) : nat :=
  List.length (filter negb outcomes).

(** The ERROR lines of a console. *)
Definition errors_of (lines : list LogLine) : list LogLine :=
  filter (fun line => match fst line with ERROR => true | LOG => false end) lines.

(** A computation keeps the relation [R] between the world it starts
    in and the world it leaves. *)
Definition preserves (R : World -> World -> Prop) {A} (m : Eff A) : Prop :=
  forall w, R w (fst (m w)).

(** The table has only gained rows, all within the bounds. *)
Definition table_grew (w w' : World) : Prop :=
  exists rows, satellite_data w' = satellite_data w ++ rows /\
               Forall row_in_range rows.

Definition same_fetch_log (w w' : World) : Prop := fetch_log w' = fetch_log w.

(** Every value a computation returns satisfies [Q]. *)
Definition returns {A} (m : Eff A) (Q : A -> Prop) : Prop :=
  forall w w' a, m w = (w', Normal a) -> Q a.

(** The bodies of the two error responses. *)
Definition error_body (error : Thrown) (timestamp : string) : json :=
  JObj [("success", JBool false);
        ("error", JStr (errorMessage error));
        ("timestamp", JStr timestamp)]%string.

(** The [fetch] the webhook issues for a decoded message. *)
Definition relayed_call (P : Platform) (messageData : json) : FetchCall :=
  {| fetch_url :=
       (Webhook.template (Deno_env_get P "SUPABASE_URL")
        ++ "/functions/v1/ingest-satellite-data")%string;
     fetch_method := "POST";
     fetch_headers :=
       [("Authorization",
         "Bearer " ++ Webhook.template (Deno_env_get P "SUPABASE_SERVICE_ROLE_KEY"));
        ("Content-Type", "application/json")]%string;
     fetch_body :=
       object [("trigger", Some (JStr "pubsub"));
               ("source", Some (JStr "google-cloud"));
               ("latitude", opt_get (get messageData "location") "latitude");
               ("longitude", opt_get (get messageData "location") "longitude");
               ("eventType", get messageData "eventType");
               ("satellite", get messageData "satellite");
               ("severity", get messageData "severity")]%string |}.

(** The world in which that [fetch] is served: the webhook has written
    five console lines and recorded the call. *)
Definition at_fetch (call : FetchCall) (w : World) : World :=
  mkWorld (random_calls w) (clock_reads w) (insert_log w) (satellite_data w)
    (fetch_log w ++ [call])
    (console w ++ [(LOG, "Received Google Cloud Pub/Sub webhook:");
                   (LOG, "Decoded Pub/Sub data:");
                   (LOG, "Processing satellite event");
                   (LOG, "Location");
                   (LOG, "Severity")]%string).

(** The webhook's response to a processed event. *)
Definition processed_response (messageId eventType dataPointsProcessed : value) : Response :=
  mkResponse 200 Webhook.json_headers
    (Some (object [("success", Some (JBool true));
                   ("message", Some (JStr "Satellite event processed successfully"));
                   ("messageId", messageId);
                   ("eventType", eventType);
                   ("dataPointsProcessed", dataPointsProcessed)]%string)).

(** [q] rounded to [scale] decimals, half away from zero. *)
Definition rounded (scale : nat) (q : Q) : Q :=
  inject_Z (Storage.round_half_away (q * inject_Z (10 ^ Z.of_nat scale)))
  / inject_Z (10 ^ Z.of_nat scale).

(** [q] has at most [scale] decimals. *)
Definition has_decimals (scale : nat) (q : Q) : Prop :=
  exists m : Z, q * inject_Z (10 ^ Z.of_nat scale) == inject_Z m.

(** What a stored row keeps of the point it was made from: everything
    but the coordinates exactly; the coordinates rounded to 8 decimals,
    hence exactly when they have no more. *)
Definition read_back (p : SatelliteDataPoint) (r : Row) : Prop :=
  (exists la lo,
      latitude p = Num la /\ longitude p = Num lo /\
      row_latitude r == rounded 8 la /\ row_longitude r == rounded 8 lo /\
      (has_decimals 8 la -> row_latitude r == la) /\
      (has_decimals 8 lo -> row_longitude r == lo)) /\
  row_acquisition_time r = acquisition_time p /\
  row_cloud_coverage r == cloud_coverage p /\
  row_vegetation_index r == vegetation_index p /\
  row_water_index r == water_index p /\
  row_temperature r == temperature p /\
  row_risk_indicators r = risk_indicators p /\
  row_source r = source p.



(** A centre that is a point of the globe. *)
Definition valid_centre (lat lng : Q) : Prop :=
  (-90 <= lat /\ lat <= 90) /\ (-180 <= lng /\ lng <= 180).

(** A centre all of whose lattice points fit the coordinate columns:
    the lattice reaches 0.045 from the centre, DECIMAL(10, 8) holds
    magnitudes that round to less than 100 and DECIMAL(11, 8) magnitudes
    that round to less than 1000. *)
Definition fits_columns (lat lng : Q) : Prop :=
  (-99.954999995 < lat /\ lat < 99.954999995) /\
  (-999.954999995 < lng /\ lng < 999.954999995).

(** Centres safely inside and safely outside that capacity. *)
Definition storable_centre (lat lng : Q) : Prop :=
  (-99.95 <= lat /\ lat <= 99.95) /\ (-999.95 <= lng /\ lng <= 999.95).

Definition overflowing_centre (lat lng : Q) : Prop :=
  lat <= -99.96 \/ 99.96 <= lat \/ lng <= -999.96 \/ 999.96 <= lng.

(** The world after one insert statement with outcome [ok] that stored
    [rows] (none when it was refused). *)
Definition inserted (ok : bool) (rows : list Row) (w : World) : World :=
  mkWorld (random_calls w) (clock_reads w) (insert_log w ++ [ok])
    (satellite_data w ++ rows) (fetch_log w) (console w).

(** The box of the map centred on ([lat], [lng]). *)
Definition in_map_box (lat lng : Q) (r : Row) : bool :=
  Storage.in_box (lat - 0.05) (lat + 0.05) (lng - 0.05) (lng + 0.05) r.

(** An entry of [locations] with numeric coordinates on the globe. *)
Definition valid_location (location : json) : Prop :=
  exists lat lng,
    get location "lat" = Some (JNum lat) /\ get location "lng" = Some (JNum lng) /\
    valid_centre lat lng.

(** The world in which the loop over the locations starts. *)
Definition at_loop (w : World) : World :=
  logged [(LOG, "Satellite data ingestion triggered by"%string);
          (LOG, "Using demo mode for satellite data"%string)] w.

(** The world in which one location's insert is issued. *)
Definition at_insert (w : World) : World :=
  logged [(LOG, "Fetching satellite data for coordinates"%string);
          (LOG, "Generated satellite data points"%string)] (drew 245 49 w).

(** The response of a completed ingestion. *)
Definition summary (trigger source locationsProcessed : value)
  (dataPointsInserted : nat) (timestamp : string) : Response :=
  mkResponse 200 Ingest.json_headers
    (Some (object [("success", Some (JBool true));
                   ("message", Some (JStr "Satellite data ingestion complete"));
                   ("trigger", trigger);
                   ("source", source);
                   ("locationsProcessed", locationsProcessed);
                   ("dataPointsInserted", Some (number dataPointsInserted));
                   ("timestamp", Some (JStr timestamp))]%string)).

(** An entry (not [null]) whose insert is refused: the database cannot
    be reached at all, a coordinate of the entry is not a number, or
    the coordinates are numbers too large for their columns. *)
Definition refused (P : Platform) (location : json) : Prop :=
  location <> JNull /\
  ((forall n, db_reachable P n = false) \/
   ToNumber P (get location "lat") = NaN \/ ToNumber P (get location "lng") = NaN \/
   exists lat lng,
     get location "lat" = Some (JNum lat) /\ get location "lng" = Some (JNum lng) /\
     overflowing_centre lat lng).

(** Two locations on the globe, under the key [locations]. *)
Definition two_cities : json :=
  JObj [("locations", JArr [Ingest.location 40.7128 (-74.006);
                            Ingest.location (-33.8688) 151.2093])]%string.

(** Two entries that name their coordinates [latitude] and [longitude]. *)
Definition misnamed_coordinates : json :=
  JObj [("locations",
         JArr [JObj [("latitude", JNum 40.7128); ("longitude", JNum (-74.006))];
               JObj [("latitude", JNum 51.5074); ("longitude", JNum (-0.1278))]])]%string.

(** The requests that fail before the loop over the locations: the
    body does not parse, or is [null]; the client library throws; or
    [locations] is truthy but cannot be iterated (a number, [true], an
    object). *)
Definition fails_early (P : Platform) (req : Request) : Prop :=
  (exists e, json_body req = Throw e) \/
  json_body req = Normal JNull \/
  (exists e, createClient P (Deno_env_get P "SUPABASE_URL")
               (Deno_env_get P "SUPABASE_SERVICE_ROLE_KEY") = Throw e) \/
  (exists request j,
      json_body req = Normal request /\ get request "locations" = Some j /\
      truthy (Some j) = true /\ iterate j = None).

(** The database and the random source are as they were. *)
Definition untouched (w w' : World) : Prop :=
  satellite_data w' = satellite_data w /\ insert_log w' = insert_log w /\
  random_calls w' = random_calls w /\ fetch_log w' = fetch_log w.

(** The requests the webhook gives up on before it calls the ingestion
    function: the body does not parse, or is [null]; the envelope has
    no truthy [message]; [message.data] does not decode to JSON, or
    decodes to [null]; the client library throws. *)
Definition rejected_before_fetch (P : Platform) (req : Request) : Prop :=
  (exists e, json_body req = Throw e) \/
  json_body req = Normal JNull \/
  (exists envelope,
      json_body req = Normal envelope /\ envelope <> JNull /\
      truthy (get envelope "message") = false) \/
  (exists envelope message,
      json_body req = Normal envelope /\ get envelope "message" = Some message /\
      truthy (Some message) = true /\
      ((exists e, atob P (get message "data") = Throw e) \/
       (exists text e, atob P (get message "data") = Normal text /\
                       JSON_parse P text = Throw e) \/
       (exists text, atob P (get message "data") = Normal text /\
                     JSON_parse P text = Normal JNull) \/
       (exists e, createClient P (Deno_env_get P "SUPABASE_URL")
                    (Deno_env_get P "SUPABASE_SERVICE_ROLE_KEY") = Throw e))).

(** An event that names a satellite but no location. *)
Definition placeless_event : json :=
  JObj [("eventType", JStr "new_sentinel_data"); ("satellite", JStr "Sentinel-2")]%string.

Definition placeless_event_text : string := "placeless-event".

(** The demonstration platform with a [JSON.parse] that also knows
    [placeless_event_text]. *)
Definition placeless_platform : Platform :=
  mkPlatform (Math_random Demo.platform) (Date_toISOString Demo.platform)
    (Deno_env_get Demo.platform) (createClient Demo.platform)
    (db_reachable Demo.platform) (db_now Demo.platform)
    (ToNumber_other Demo.platform) (atob Demo.platform)
    (fun s => if (s =? placeless_event_text)%string then Normal placeless_event
              else JSON_parse Demo.platform s)
    (fetch Demo.platform).



(* ================================================================== *)
(** * Running the generator *)

Section Generator.

Variable P : Platform.
Variables lat lng : jsnum.

Lemma world_eta (w : World) :
  mkWorld (random_calls w) (clock_reads w) (insert_log w)
    (satellite_data w) (fetch_log w) (console w) = w.
Proof. destruct w; reflexivity. Qed.

Lemma drew_drew (a b c d : nat) (w : World) :
  drew a b (drew c d w) = drew (a + c) (b + d) w.
Proof. unfold drew; simpl; f_equal; lia. Qed.

Lemma drew_0 (w : World) : drew 0 0 w = w.
Proof. apply world_eta. Qed.

(** The inner loop over the columns [j0 .. j0 + len - 1] of row [i]. *)
Lemma inner_loop (i : nat) :
  forall (len j0 : nat) (acc : list SatelliteDataPoint) (w : World),
    for_of (seq j0 len)
      (fun j dataPoints =>
         (r1 <- random P ;;
          r2 <- random P ;;
          r3 <- random P ;;
          r4 <- random P ;;
          r5 <- random P ;;
          acquired <- now_ISO P ;;
          ret (dataPoints ++ [Ingest.dataPoint lat lng i j r1 r2 r3 r4 r5 acquired]))%eff)
      acc w
    = (drew (5 * len) len w,
       Normal (acc ++ map (fun j => cell P lat lng (5 * (j - j0) + random_calls w)
                                      (j - j0 + clock_reads w) i j)
                        (seq j0 len))).
Proof.
  induction len as [|len IH]; intros j0 acc w.
  - simpl. unfold ret. rewrite drew_0, app_nil_r. reflexivity.
  - cbn [seq for_of]. unfold bind at 1.
    cbn [random now_ISO bind ret random_calls clock_reads insert_log
         satellite_data fetch_log console].
    rewrite IH. f_equal.
    + unfold drew; cbn [random_calls clock_reads insert_log satellite_data
                        fetch_log console]. f_equal; lia.
    + f_equal. rewrite <- app_assoc. f_equal. cbn [app map].
      f_equal.
      * rewrite Nat.sub_diag. reflexivity.
      * apply map_ext_in. intros j Hj. apply in_seq in Hj.
        cbn [random_calls clock_reads].
        replace (j - j0)%nat with (S (j - S j0)) by lia.
        f_equal; lia.
Qed.

(** The outer loop over the rows [i0 .. i0 + len - 1]. *)
Lemma outer_loop :
  forall (len i0 : nat) (acc : list SatelliteDataPoint) (w : World),
    for_of (seq i0 len)
      (fun i dataPoints =>
         for_range Ingest.gridSize
           (fun j dataPoints =>
              (r1 <- random P ;;
               r2 <- random P ;;
               r3 <- random P ;;
               r4 <- random P ;;
               r5 <- random P ;;
               acquired <- now_ISO P ;;
               ret (dataPoints ++ [Ingest.dataPoint lat lng i j r1 r2 r3 r4 r5 acquired]))%eff)
           dataPoints)
      acc w
    = (drew (5 * (Ingest.gridSize * len)) (Ingest.gridSize * len) w,
       Normal (acc ++ List.concat
                 (map (fun i =>
                         map (fun j =>
                                cell P lat lng
                                  (5 * (Ingest.gridSize * (i - i0) + j) + random_calls w)
                                  (Ingest.gridSize * (i - i0) + j + clock_reads w) i j)
                             (seq 0 Ingest.gridSize))
                      (seq i0 len)))).
Proof.
  induction len as [|len IH]; intros i0 acc w.
  - cbn [seq for_of map List.concat]. unfold ret.
    rewrite Nat.mul_0_r, drew_0, app_nil_r. reflexivity.
  - cbn [seq for_of]. unfold bind at 1. unfold for_range at 1.
    rewrite inner_loop. rewrite IH. rewrite drew_drew. f_equal.
    + f_equal; lia.
    + f_equal. rewrite <- app_assoc. f_equal. cbn [map List.concat].
      f_equal.
      * apply map_ext_in. intros j _. rewrite Nat.sub_diag, Nat.sub_0_r.
        f_equal; lia.
      * f_equal. apply map_ext_in. intros i Hi. apply in_seq in Hi.
        apply map_ext_in. intros j _.
        unfold drew; cbn [random_calls clock_reads].
        replace (i - i0)%nat with (S (i - S i0)) by lia.
        f_equal; lia.
Qed.

(** One call of [fetchSatelliteData] returns the lattice, after 245
    draws and 49 readings of the clock, and never throws. *)
Lemma fetchSatelliteData_run (token : string) (w : World) :
  Ingest.fetchSatelliteData P lat lng token w
  = (logged [(LOG, "Fetching satellite data for coordinates"%string);
             (LOG, "Generated satellite data points"%string)]
       (drew 245 49 w),
     Normal (lattice P lat lng (random_calls w) (clock_reads w))).
Proof.
  unfold Ingest.fetchSatelliteData.
  unfold bind at 1. cbn [console_log].
  unfold bind at 1. unfold for_range at 1.
  rewrite outer_loop.
  unfold bind, console_log, ret, logged, drew.
  cbn [random_calls clock_reads insert_log satellite_data fetch_log console app].
  apply f_equal2.
  - rewrite <- app_assoc. reflexivity.
  - apply f_equal. unfold lattice, lattice_row.
    apply f_equal. apply map_ext_in. intros i _.
    apply map_ext_in. intros j _. rewrite Nat.sub_0_r. reflexivity.
Qed.

End Generator.

(* ================================================================== *)
(** * Shape of the lattice *)

Section Lattice.

Variable P : Platform.
Variables lat lng : jsnum.
Variables n c : nat.

Lemma lattice_row_length (i : nat) :
  List.length (lattice_row P lat lng n c i) = Ingest.gridSize.
Proof. unfold lattice_row. rewrite length_map, length_seq. reflexivity. Qed.

Lemma nth_error_lattice_row (i j : nat) :
  (j < Ingest.gridSize)%nat ->
  nth_error (lattice_row P lat lng n c i) j
  = Some (cell P lat lng (5 * (Ingest.gridSize * i + j) + n)
            (Ingest.gridSize * i + j + c) i j).
Proof.
  intros Hj. unfold lattice_row.
  rewrite nth_error_map, nth_error_seq.
  destruct (Nat.ltb_spec j Ingest.gridSize) as [_|Hge]; [reflexivity|lia].
Qed.

(** Rows of equal length, concatenated: element [m * i + j] is element
    [j] of row [i]. *)
Lemma nth_error_concat_rows {A} (row : nat -> list A) (m : nat) :
  (forall i, List.length (row i) = m) ->
  forall len i0 i j,
    (i < len)%nat -> (j < m)%nat ->
    nth_error (List.concat (map row (seq i0 len))) (m * i + j)
    = nth_error (row (i0 + i)%nat) j.
Proof.
  intros Hrow. induction len as [|len IH]; intros i0 i j Hi Hj; [lia|].
  cbn [seq map List.concat]. destruct i as [|i].
  - rewrite Nat.mul_0_r, Nat.add_0_r. cbn [Nat.add].
    apply nth_error_app1. rewrite Hrow. exact Hj.
  - rewrite nth_error_app2 by (rewrite Hrow; nia).
    rewrite Hrow.
    replace (m * S i + j - m)%nat with (m * i + j)%nat by nia.
    rewrite IH by lia. f_equal. f_equal. lia.
Qed.

Lemma concat_rows_length {A} (row : nat -> list A) (m : nat) :
  (forall i, List.length (row i) = m) ->
  forall len i0, List.length (List.concat (map row (seq i0 len))) = (len * m)%nat.
Proof.
  intros Hrow. induction len as [|len IH]; intros i0; [reflexivity|].
  cbn [seq map List.concat]. rewrite length_app, Hrow, IH. reflexivity.
Qed.

Lemma lattice_length : List.length (lattice P lat lng n c) = 49%nat.
Proof.
  unfold lattice.
  rewrite (concat_rows_length _ lattice_row_length). reflexivity.
Qed.

Lemma nth_error_lattice (i j : nat) :
  (i < Ingest.gridSize)%nat -> (j < Ingest.gridSize)%nat ->
  nth_error (lattice P lat lng n c) (Ingest.gridSize * i + j)
  = Some (cell P lat lng (5 * (Ingest.gridSize * i + j) + n)
            (Ingest.gridSize * i + j + c) i j).
Proof.
  intros Hi Hj. unfold lattice.
  rewrite (nth_error_concat_rows _ lattice_row_length) by assumption.
  apply nth_error_lattice_row. exact Hj.
Qed.

(** Every element of the lattice is the cell of some position. *)
Lemma in_lattice (p : SatelliteDataPoint) :
  In p (lattice P lat lng n c) ->
  exists i j, (i < Ingest.gridSize)%nat /\ (j < Ingest.gridSize)%nat /\
    p = cell P lat lng (5 * (Ingest.gridSize * i + j) + n)
          (Ingest.gridSize * i + j + c) i j.
Proof.
  unfold lattice. intros Hin. apply in_concat in Hin.
  destruct Hin as (row & Hrow & Hp).
  apply in_map_iff in Hrow. destruct Hrow as (i & <- & Hi).
  unfold lattice_row in Hp. apply in_map_iff in Hp.
  destruct Hp as (j & <- & Hj).
  apply in_seq in Hi. apply in_seq in Hj.
  exists i, j. repeat split; lia.
Qed.

End Lattice.

(* ================================================================== *)
(** * Rounding and clamping *)

Section Rounding.

Lemma Math_round_lower (a : Z) (x : Q) :
  inject_Z a <= x -> (a <= Math_round x)%Z.
Proof.
  intros H. unfold Math_round.
  rewrite <- (Qfloor_Z a). apply Qfloor_resp_le. lra.
Qed.

Lemma Math_round_upper (b : Z) (x : Q) :
  x <= inject_Z b -> (Math_round x <= b)%Z.
Proof.
  intros H. unfold Math_round.
  assert (Hfl : inject_Z (Qfloor (x + 0.5)) <= inject_Z b + 0.5).
  { eapply Qle_trans; [apply Qfloor_le|]. lra. }
  assert (Hlt : inject_Z (Qfloor (x + 0.5)) < inject_Z (b + 1)).
  { rewrite inject_Z_plus. change (inject_Z 1) with 1.
    eapply Qle_lt_trans; [exact Hfl|]. lra. }
  rewrite <- Zlt_Qlt in Hlt. lia.
Qed.

Lemma Math_round_integer (z : Z) : Math_round (inject_Z z) = z.
Proof.
  apply Z.le_antisymm.
  - apply Math_round_upper. apply Qle_refl.
  - apply Math_round_lower. apply Qle_refl.
Qed.


Lemma clamp_range (x : Q) : 0 <= clamp 0 100 x /\ clamp 0 100 x <= 100.
Proof.
  unfold clamp, Math_min, Math_max. split.
  - apply Q.min_glb; [lra|apply Q.le_max_l].
  - apply Q.le_min_l.
Qed.

Lemma round_clamp_range (x : Q) :
  (0 <= Math_round (Math_min 100 (Math_max 0 x)) <= 100)%Z.
Proof.
  destruct (clamp_range x) as [Hlo Hhi]. unfold clamp in *. split.
  - apply Math_round_lower. exact Hlo.
  - apply Math_round_upper. exact Hhi.
Qed.

(** [Math.round(x * 100) / 100] keeps [x] between bounds that have
    at most two decimals. *)
Lemma round2_range (a b : Z) (x : Q) :
  inject_Z a <= x * 100 -> x * 100 <= inject_Z b ->
  inject_Z a <= round2 x * 100 /\ round2 x * 100 <= inject_Z b.
Proof.
  intros Hlo Hhi. unfold round2.
  assert (Ha : (a <= Math_round (x * 100))%Z).
  { apply Math_round_lower. exact Hlo. }
  assert (Hb : (Math_round (x * 100) <= b)%Z).
  { apply Math_round_upper. exact Hhi. }
  rewrite Zle_Qle in Ha, Hb.
  unfold Qdiv. change (/ 100) with (1 # 100). split; lra.
Qed.

End Rounding.

(* ================================================================== *)
(** * The generated points *)

Section GeneratedPoints.

Variable P : Platform.

(** Bounds of [round2 x] from bounds of [x] with at most two decimals,
    [a / 100] and [b / 100]. *)
Ltac round2_bounds a b x :=
  let H := fresh "H" in
  pose proof (@round2_range a b x) as H;
  unfold inject_Z in H; destruct H; lra.

Lemma cell_range (lat lng : jsnum) (n c i j : nat) :
  unit_random P -> point_in_range (cell P lat lng n c i j).
Proof.
  intros HP.
  destruct (HP n) as [H1 H1'], (HP (1 + n)%nat) as [H2 H2'],
           (HP (2 + n)%nat) as [H3 H3'], (HP (3 + n)%nat) as [H4 H4'].
  unfold point_in_range, cell, Ingest.dataPoint; cbn [cloud_coverage
    vegetation_index water_index temperature risk_indicators].
  repeat split; try apply round_clamp_range.
  - round2_bounds 0%Z 3000%Z (Math_random P n * 30).
  - round2_bounds 0%Z 3000%Z (Math_random P n * 30).
  - round2_bounds 20%Z 80%Z (0.2 + Math_random P (1 + n) * 0.6).
  - round2_bounds 20%Z 80%Z (0.2 + Math_random P (1 + n) * 0.6).
  - round2_bounds (-30)%Z 20%Z (-0.3 + Math_random P (2 + n) * 0.5).
  - round2_bounds (-30)%Z 20%Z (-0.3 + Math_random P (2 + n) * 0.5).
  - round2_bounds 1500%Z 3000%Z (15 + Math_random P (3 + n) * 15).
  - round2_bounds 1500%Z 3000%Z (15 + Math_random P (3 + n) * 15).
Qed.

Lemma lattice_range (lat lng : jsnum) (n c : nat) :
  unit_random P -> Forall point_in_range (lattice P lat lng n c).
Proof.
  intros HP. apply Forall_forall. intros p Hp.
  apply in_lattice in Hp. destruct Hp as (i & j & _ & _ & ->).
  apply cell_range. exact HP.
Qed.

End GeneratedPoints.

(* ================================================================== *)
(** * Storing points *)

Section StorageFacts.

Lemma round_half_away_range (a b : Z) (y : Q) :
  inject_Z a <= y -> y <= inject_Z b ->
  (a <= Storage.round_half_away y <= b)%Z.
Proof.
  intros Hlo Hhi. unfold Storage.round_half_away.
  destruct (Qle_bool 0 y).
  - split; [apply Math_round_lower|apply Math_round_upper]; assumption.
  - assert (H1 : (Math_round (- y) <= - a)%Z).
    { apply Math_round_upper. rewrite inject_Z_opp. lra. }
    assert (H2 : (- b <= Math_round (- y))%Z).
    { apply Math_round_lower. rewrite inject_Z_opp. lra. }
    unfold Math_round in H1, H2. lia.
Qed.

Lemma round_half_away_comp (x y : Q) :
  x == y -> Storage.round_half_away x = Storage.round_half_away y.
Proof.
  intros H. unfold Storage.round_half_away.
  assert (Hb : Qle_bool 0 x = Qle_bool 0 y).
  { destruct (Qle_bool 0 x) eqn:Hx, (Qle_bool 0 y) eqn:Hy; try reflexivity.
    - rewrite Qle_bool_iff in Hx. rewrite H in Hx.
      rewrite <- Qle_bool_iff in Hx. congruence.
    - rewrite Qle_bool_iff in Hy. rewrite <- H in Hy.
      rewrite <- Qle_bool_iff in Hy. congruence. }
  rewrite Hb. destruct (Qle_bool 0 y).
  - apply Qfloor_comp. rewrite H. reflexivity.
  - f_equal. apply Qfloor_comp. rewrite H. reflexivity.
Qed.

Lemma round_half_away_integer (z : Z) :
  Storage.round_half_away (inject_Z z) = z.
Proof.
  pose proof (@round_half_away_range z z (inject_Z z) (Qle_refl _) (Qle_refl _)).
  lia.
Qed.

(** A DECIMAL(_, 2) column keeps a value between bounds that have at
    most two decimals. *)
Lemma decimal2_range (precision : nat) (a b : Z) (q q' : Q) :
  inject_Z a <= q * 100 -> q * 100 <= inject_Z b ->
  Storage.decimal precision 2 q = Some q' ->
  inject_Z a <= q' * 100 /\ q' * 100 <= inject_Z b.
Proof.
  intros Hlo Hhi. unfold Storage.decimal.
  change (10 ^ Z.of_nat 2)%Z with 100%Z. change (inject_Z 100) with 100.
  destruct (Z.abs _ <? _)%Z; [|discriminate].
  intros [= <-].
  destruct (@round_half_away_range a b (q * 100) Hlo Hhi) as [Ha Hb].
  rewrite Zle_Qle in Ha, Hb.
  unfold Qdiv. change (/ 100) with (1 # 100). split; lra.
Qed.

(** A DECIMAL(_, scale) column stores exactly a value that has at
    most [scale] decimals. *)
Lemma decimal_exact (precision scale : nat) (m : Z) (q q' : Q) :
  q * inject_Z (10 ^ Z.of_nat scale) == inject_Z m ->
  Storage.decimal precision scale q = Some q' ->
  q' == q.
Proof.
  intros Hm. unfold Storage.decimal.
  rewrite (round_half_away_comp Hm), round_half_away_integer.
  destruct (Z.abs m <? _)%Z; [|discriminate].
  intros [= <-].
  assert (Hpos : ~ inject_Z (10 ^ Z.of_nat scale) == 0).
  { intros H0. assert (Hz : (0 < 10 ^ Z.of_nat scale)%Z) by (apply Z.pow_pos_nonneg; lia).
    rewrite Zlt_Qlt in Hz. change (inject_Z 0) with 0 in Hz. rewrite H0 in Hz.
    apply (Qlt_irrefl 0). exact Hz. }
  rewrite <- Hm. field. exact Hpos.
Qed.

(** What a DECIMAL column stores, when it stores at all: the value
    rounded (half away from zero) to [scale] decimals. *)
Lemma decimal_value (precision scale : nat) (q q' : Q) :
  Storage.decimal precision scale q = Some q' ->
  q' = inject_Z (Storage.round_half_away (q * inject_Z (10 ^ Z.of_nat scale)))
       / inject_Z (10 ^ Z.of_nat scale).
Proof.
  unfold Storage.decimal. destruct (Z.abs _ <? _)%Z; [|discriminate].
  intros [= <-]. reflexivity.
Qed.

Lemma to_rows_stored (now : string) :
  forall (data : list SatelliteDataPoint) (id : nat) (rows : list Row),
    Storage.to_rows id now data = inr rows ->
    Forall2 (stored_as now) data rows.
Proof.
  induction data as [|d data IH]; intros id rows H; cbn [Storage.to_rows] in H.
  - injection H as <-. constructor.
  - destruct (Storage.to_row id now d) as [e|r] eqn:Hr; [discriminate|].
    destruct (Storage.to_rows (S id) now data) as [e|rs] eqn:Hrs; [discriminate|].
    injection H as <-. constructor.
    + exists id. exact Hr.
    + eapply IH. exact Hrs.
Qed.

Lemma stored_in_range (now : string) (d : SatelliteDataPoint) (r : Row) :
  point_in_range d -> stored_as now d r -> row_in_range r.
Proof.
  intros (Hc & Hv & Hw & Ht & Hrisk) [id H].
  unfold Storage.to_row in H.
  destruct (latitude d) as [|la]; [discriminate|].
  destruct (longitude d) as [|lo]; [discriminate|].
  destruct (Storage.decimal 10 8 la); [|discriminate].
  destruct (Storage.decimal 11 8 lo); [|discriminate].
  destruct (Storage.decimal 5 2 (cloud_coverage d)) as [cc|] eqn:Hcc; [|discriminate].
  destruct (Storage.decimal 5 2 (vegetation_index d)) as [vi|] eqn:Hvi; [|discriminate].
  destruct (Storage.decimal 5 2 (water_index d)) as [wi|] eqn:Hwi; [|discriminate].
  destruct (Storage.decimal 6 2 (temperature d)) as [t|] eqn:Htt; [|discriminate].
  injection H as <-.
  unfold row_in_range; cbn [row_cloud_coverage row_vegetation_index
    row_water_index row_temperature row_risk_indicators].
  apply (@decimal2_range _ 0 3000) in Hcc;
    [|change (inject_Z 0) with 0; lra|change (inject_Z 3000) with 3000; lra].
  apply (@decimal2_range _ 20 80) in Hvi;
    [|change (inject_Z 20) with 20; lra|change (inject_Z 80) with 80; lra].
  apply (@decimal2_range _ (-30) 20) in Hwi;
    [|change (inject_Z (-30)) with (-30); lra|change (inject_Z 20) with 20; lra].
  apply (@decimal2_range _ 1500 3000) in Htt;
    [|change (inject_Z 1500) with 1500; lra|change (inject_Z 3000) with 3000; lra].
  change (inject_Z 0) with 0 in *. change (inject_Z 3000) with 3000 in *.
  change (inject_Z 20) with 20 in *. change (inject_Z 80) with 80 in *.
  change (inject_Z (-30)) with (-30) in *. change (inject_Z 1500) with 1500 in *.
  repeat split; try lra; apply Hrisk.
Qed.

(** A successful insert appends one row per point, each the stored
    form of its point; a refused insert leaves the table as it was. *)
Lemma insert_run (P : Platform) (data : list SatelliteDataPoint) (w : World) :
  exists (w' : World) (error : option PostgrestError),
    Storage.insert P data w = (w', Normal error) /\
    random_calls w' = random_calls w /\ clock_reads w' = clock_reads w /\
    fetch_log w' = fetch_log w /\ console w' = console w /\
    match error with
    | None =>
        insert_log w' = insert_log w ++ [true] /\
        exists rows,
          satellite_data w' = satellite_data w ++ rows /\
          Forall2 (stored_as (db_now P (List.length (insert_log w)))) data rows
    | Some _ =>
        insert_log w' = insert_log w ++ [false] /\
        satellite_data w' = satellite_data w
    end.
Proof.
  unfold Storage.insert.
  destruct (db_reachable P (List.length (insert_log w))).
  - destruct (Storage.to_rows _ _ data) as [e|rows] eqn:Hrows.
    + eexists _, (Some e). repeat split; reflexivity.
    + eexists _, None. repeat split; try reflexivity.
      exists rows. split; [reflexivity|].
      eapply to_rows_stored. exact Hrows.
  - eexists _, (Some Unreachable). repeat split; reflexivity.
Qed.

End StorageFacts.

(* ================================================================== *)
(** * Properties of the generator *)







(* ================================================================== *)
(** * Reasoning about [Eff] *)

Section EffLaws.

Context {A B : Type}.

Lemma bind_normal (m : Eff A) (k : A -> Eff B) (w w1 : World) (a : A) :
  m w = (w1, Normal a) -> bind m k w = k a w1.
Proof. intros H. unfold bind. rewrite H. reflexivity. Qed.

Lemma bind_throw (m : Eff A) (k : A -> Eff B) (w w1 : World) (e : Thrown) :
  m w = (w1, Throw e) -> bind m k w = (w1, Throw e).
Proof. intros H. unfold bind. rewrite H. reflexivity. Qed.

Lemma member_defined (v : json) (k : string) :
  v <> JNull -> member (Some v) k = ret (get v k).
Proof. destruct v; intros H; try reflexivity. contradiction. Qed.

End EffLaws.

Section Frame.

Variable R : World -> World -> Prop.
Hypothesis R_refl : forall w, R w w.
Hypothesis R_trans : forall a b c, R a b -> R b c -> R a c.
Hypothesis R_logged : forall lines w, R w (logged lines w).
Hypothesis R_drew : forall a b w, R w (drew a b w).

Lemma preserves_ret {A} (a : A) : preserves R (ret a).
Proof. intros w. apply R_refl. Qed.

Lemma preserves_throw {A} (e : Thrown) : preserves R (@throw A e).
Proof. intros w. apply R_refl. Qed.

Lemma preserves_await {A} (c : Completion A) : preserves R (await c).
Proof. intros w. apply R_refl. Qed.

Lemma preserves_member (v : value) (k : string) : preserves R (member v k).
Proof. destruct v as [[]|]; intros w; apply R_refl. Qed.

Lemma preserves_bind {A B} (m : Eff A) (k : A -> Eff B) :
  preserves R m -> (forall a, preserves R (k a)) -> preserves R (bind m k).
Proof.
  intros Hm Hk w. unfold bind. specialize (Hm w).
  destruct (m w) as [w1 [a|e]]; cbn [fst] in *.
  - eapply R_trans; [exact Hm|apply Hk].
  - exact Hm.
Qed.

Lemma preserves_try_catch {A} (m : Eff A) (h : Thrown -> Eff A) :
  preserves R m -> (forall e, preserves R (h e)) -> preserves R (try_catch m h).
Proof.
  intros Hm Hh w. unfold try_catch. specialize (Hm w).
  destruct (m w) as [w1 [a|e]]; cbn [fst] in *.
  - exact Hm.
  - eapply R_trans; [exact Hm|apply Hh].
Qed.

Lemma preserves_for_of {A S} (body : A -> S -> Eff S) :
  (forall x acc, preserves R (body x acc)) ->
  forall xs acc, preserves R (for_of xs body acc).
Proof.
  intros Hbody. induction xs as [|x xs IH]; intros acc; cbn [for_of].
  - apply preserves_ret.
  - apply preserves_bind; [apply Hbody|]. intros acc'. apply IH.
Qed.

Lemma preserves_console_log (line : string) : preserves R (console_log line).
Proof. intros w. apply (R_logged [(LOG, line)] w). Qed.

Lemma preserves_console_error (line : string) : preserves R (console_error line).
Proof. intros w. apply (R_logged [(ERROR, line)] w). Qed.

Lemma preserves_now_ISO (P : Platform) : preserves R (now_ISO P).
Proof. intros w. apply (R_drew 0 1 w). Qed.

Lemma preserves_fetchSatelliteData (P : Platform) (lat lng : jsnum) (token : string) :
  preserves R (Ingest.fetchSatelliteData P lat lng token).
Proof.
  intros w. rewrite fetchSatelliteData_run. cbn [fst].
  eapply R_trans; [apply R_drew|apply R_logged].
Qed.

Variable P : Platform.
Hypothesis R_insert :
  forall lat lng n c w, R w (fst (Storage.insert P (lattice P lat lng n c) w)).

Lemma preserves_process (token : string) (location : json) (total : nat) :
  preserves R (Ingest.process P token location total).
Proof.
  unfold Ingest.process.
  apply preserves_bind; [apply preserves_member|]. intros lat.
  apply preserves_bind; [apply preserves_member|]. intros lng.
  intros w.
  erewrite bind_normal by apply fetchSatelliteData_run.
  set (w1 := logged _ (drew 245 49 w)).
  apply R_trans with w1;
    [apply R_trans with (drew 245 49 w); [apply R_drew|apply R_logged]|].
  pose proof (R_insert (ToNumber P lat) (ToNumber P lng)
                (random_calls w) (clock_reads w) w1) as Hins.
  unfold bind.
  destruct (Storage.insert P _ w1) as [w2 [error|e]]; cbn [fst] in *.
  - apply R_trans with w2; [exact Hins|].
    destruct error.
    + assert (Hp : preserves R
                (console_error "Error inserting satellite data for" ;; ret total)%eff)
        by (apply preserves_bind; [apply preserves_console_error
                                  |intros; apply preserves_ret]).
      apply Hp.
    + assert (Hp : preserves R
                (console_log "Inserted satellite data points for" ;;
                 ret (total + List.length
                        (lattice P (ToNumber P lat) (ToNumber P lng)
                           (random_calls w) (clock_reads w)))%nat)%eff)
        by (apply preserves_bind; [apply preserves_console_log
                                  |intros; apply preserves_ret]).
      apply Hp.
  - exact Hins.
Qed.

Lemma preserves_ingest (req : Request) : preserves R (Ingest.ingest P req).
Proof.
  unfold Ingest.ingest.
  apply preserves_bind; [apply preserves_await|]. intros request.
  do 5 (apply preserves_bind; [apply preserves_member|]; intro).
  apply preserves_bind; [apply preserves_console_log|]. intros _.
  apply preserves_bind; [apply preserves_await|]. intros _.
  apply preserves_bind.
  { unfold Ingest.getCopernicusToken.
    apply preserves_bind; [apply preserves_console_log|].
    intros _. apply preserves_ret. }
  intros token.
  apply preserves_bind.
  { unfold Ingest.iterator.
    destruct (Ingest.locationsToProcess _ _ _) as [j|];
      [destruct (iterate j)|]; try apply preserves_ret; apply preserves_throw. }
  intros items.
  apply preserves_bind; [apply preserves_for_of; intros; apply preserves_process|].
  intros total.
  apply preserves_bind.
  { unfold Ingest.length_prop.
    destruct (Ingest.locationsToProcess _ _ _) as [[]|];
      try apply preserves_ret; apply preserves_throw. }
  intros count.
  apply preserves_bind; [apply preserves_now_ISO|]. intros timestamp.
  apply preserves_bind; [apply preserves_console_log|]. intros _.
  apply preserves_ret.
Qed.

Lemma preserves_ingest_serve (req : Request) : preserves R (Ingest.serve P req).
Proof.
  unfold Ingest.serve. destruct (method req =? "OPTIONS")%string.
  - apply preserves_ret.
  - apply preserves_try_catch; [apply preserves_ingest|].
    intros e. unfold Ingest.on_error.
    apply preserves_bind; [apply preserves_console_error|]. intros _.
    apply preserves_bind; [apply preserves_now_ISO|]. intros timestamp.
    apply preserves_ret.
Qed.

End Frame.

(* ================================================================== *)
(** * What the ingestion function leaves in the table *)

Section TableGrowth.

Lemma table_grew_refl (w : World) : table_grew w w.
Proof. exists []. rewrite app_nil_r. split; [reflexivity|constructor]. Qed.

Lemma table_grew_trans (a b c : World) :
  table_grew a b -> table_grew b c -> table_grew a c.
Proof.
  intros (r1 & H1 & F1) (r2 & H2 & F2). exists (r1 ++ r2).
  rewrite H2, H1, app_assoc. split; [reflexivity|].
  apply Forall_app. split; assumption.
Qed.

Lemma table_grew_logged (lines : list LogLine) (w : World) :
  table_grew w (logged lines w).
Proof. exists []. cbn. rewrite app_nil_r. split; [reflexivity|constructor]. Qed.

Lemma table_grew_drew (a b : nat) (w : World) : table_grew w (drew a b w).
Proof. exists []. cbn. rewrite app_nil_r. split; [reflexivity|constructor]. Qed.

Lemma stored_rows_in_range (now : string) :
  forall (data : list SatelliteDataPoint) (rows : list Row),
    Forall point_in_range data ->
    Forall2 (stored_as now) data rows ->
    Forall row_in_range rows.
Proof.
  intros data rows Hdata H2.
  induction H2 as [|d r data rows Hdr _ IH]; [constructor|].
  inversion Hdata as [|? ? Hd Hrest]; subst.
  constructor; [eapply stored_in_range; eassumption|apply IH; exact Hrest].
Qed.

Lemma table_grew_insert (P : Platform) (data : list SatelliteDataPoint) (w : World) :
  Forall point_in_range data ->
  table_grew w (fst (Storage.insert P data w)).
Proof.
  intros Hdata.
  destruct (insert_run P data w) as (w' & error & Hrun & _ & _ & _ & _ & Hout).
  rewrite Hrun. cbn [fst]. destruct error as [e|].
  - destruct Hout as [_ Htable]. exists []. rewrite Htable, app_nil_r.
    split; [reflexivity|constructor].
  - destruct Hout as [_ (rows & Htable & Hrows)]. exists rows.
    split; [exact Htable|]. eapply stored_rows_in_range; eassumption.
Qed.

End TableGrowth.

(** C2.  With [Math.random] in [0, 1), whatever the draws are: every
    point one call of the generator returns has cloud_coverage in
    [0, 30], vegetation_index in [0.2, 0.8], water_index in [-0.3, 0.2],
    temperature in [15, 30] and each of its four risk indicators in
    [0, 100]; and every row a request to the ingestion function adds to
    the table -- whatever the request, and whether it ends in a 200 or
    in a 500 -- satisfies the same bounds. *)
Theorem generated_values_in_range (P : Platform) :
  unit_random P ->
  (forall lat lng token w,
      exists w' points,
        Ingest.fetchSatelliteData P lat lng token w = (w', Normal points) /\
        Forall point_in_range points) /\
  (forall req w,
      exists rows,
        satellite_data (fst (Ingest.serve P req w)) = satellite_data w ++ rows /\
        Forall row_in_range rows).
Proof.
  intros HP. split.
  - intros lat lng token w. eexists _, _.
    split; [apply fetchSatelliteData_run|]. apply lattice_range. exact HP.
  - intros req w.
    apply (@preserves_ingest_serve table_grew table_grew_refl table_grew_trans
             table_grew_logged table_grew_drew P).
    intros lat lng n c w0. apply table_grew_insert. apply lattice_range. exact HP.
Qed.

Lemma demo_unit_random : unit_random Demo.platform.
Proof.
  intros n. cbn [Math_random Demo.platform].
  pose proof (Nat.mod_upper_bound n 10 ltac:(lia)) as Hlt.
  unfold Qle, Qlt; cbn [Qnum Qden]. lia.
Qed.

Lemma generated_values_in_range_witness :
  unit_random Demo.platform /\
  (exists w' points,
      Ingest.fetchSatelliteData Demo.platform (Num 40.7128) (Num (-74.006))
        "demo-mode" initial_world = (w', Normal points) /\
      Forall point_in_range points) /\
  (exists rows,
      satellite_data
        (fst (Ingest.serve Demo.platform
                (Demo.post (JObj [("latitude", JNum 40.7128);
                                  ("longitude", JNum (-74.006))]%string))
                initial_world))
      = satellite_data initial_world ++ rows /\
      Forall row_in_range rows).
Proof.
  split; [exact demo_unit_random|].
  destruct (@generated_values_in_range Demo.platform demo_unit_random) as [Hgen Hrows].
  split; [apply Hgen|apply Hrows].
Defined.

(* ================================================================== *)
(** * The loop over the locations *)

Section LocationLoop.

Variable P : Platform.
Variable token : string.

Lemma Forall2_length_eq {A B} (Rel : A -> B -> Prop) (xs : list A) (ys : list B) :
  Forall2 Rel xs ys -> List.length xs = List.length ys.
Proof. induction 1; cbn; congruence. Qed.

(** One location that is not [null]: the generator runs, the insert
    is attempted, its outcome [ok] decides the console line and the
    count; nothing is thrown. *)
Lemma process_run (location : json) (total : nat) (w : World) :
  location <> JNull ->
  exists (w' : World) (ok : bool),
    Ingest.process P token location total w
    = (w', Normal (if ok then total + 49 else total)%nat) /\
    insert_log w' = insert_log w ++ [ok] /\
    console w' = console w ++ location_lines ok /\
    fetch_log w' = fetch_log w /\
    clock_reads w' = (49 + clock_reads w)%nat /\
    List.length (satellite_data w')
    = ((if ok then 49 else 0) + List.length (satellite_data w))%nat.
Proof.
  intros Hloc. unfold Ingest.process.
  rewrite !(member_defined _ Hloc). cbn [bind ret].
  erewrite bind_normal by apply fetchSatelliteData_run.
  set (data := lattice P _ _ _ _).
  set (w1 := logged _ (drew 245 49 w)).
  destruct (insert_run P data w1) as (w2 & error & Hrun & _ & Hclock & Hfetch & Hcons & Hout).
  erewrite bind_normal by exact Hrun.
  destruct error as [e|].
  - destruct Hout as [Hlog Htable].
    eexists _, false. split; [reflexivity|].
    cbn [console_error bind ret insert_log console fetch_log clock_reads
         satellite_data fst].
    rewrite Hlog, Hcons, Hfetch, Hclock, Htable. subst w1.
    cbn [logged drew insert_log console fetch_log clock_reads satellite_data].
    repeat split; try reflexivity.
    rewrite <- app_assoc. reflexivity.
  - destruct Hout as [Hlog (rows & Htable & Hrows)].
    eexists _, true. split.
    { cbn [console_log bind ret]. subst data. rewrite lattice_length. reflexivity. }
    cbn [insert_log console fetch_log clock_reads satellite_data fst].
    rewrite Hlog, Hcons, Hfetch, Hclock, Htable. subst w1.
    cbn [logged drew insert_log console fetch_log clock_reads satellite_data].
    repeat split; try reflexivity.
    + rewrite <- app_assoc. reflexivity.
    + rewrite length_app. apply Forall2_length_eq in Hrows.
      rewrite <- Hrows. subst data. rewrite lattice_length. lia.
Qed.

Lemma successes_app (a b : list bool) :
  successes (a ++ b) = (successes a + successes b)%nat.
Proof. unfold successes. rewrite filter_app, length_app. reflexivity. Qed.

Lemma failures_app (a b : list bool) :
  failures (a ++ b) = (failures a + failures b)%nat.
Proof. unfold failures. rewrite filter_app, length_app. reflexivity. Qed.

Lemma errors_of_app (a b : list LogLine) :
  errors_of (a ++ b) = errors_of a ++ errors_of b.
Proof. unfold errors_of. apply filter_app. Qed.

Lemma errors_of_location_lines (outcomes : list bool) :
  List.length (errors_of (flat_map location_lines outcomes)) = failures outcomes.
Proof.
  induction outcomes as [|ok outcomes IH]; [reflexivity|].
  cbn [flat_map]. rewrite errors_of_app, length_app, IH.
  change (ok :: outcomes) with ([ok] ++ outcomes). rewrite failures_app.
  destruct ok; reflexivity.
Qed.

(** The whole loop: every location is attempted, whatever the
    outcomes of the inserts before it. *)
Lemma locations_loop :
  forall (items : list json) (total : nat) (w : World),
    Forall (fun location => location <> JNull) items ->
    exists (w' : World) (outcomes : list bool),
      for_of items (Ingest.process P token) total w
      = (w', Normal (total + 49 * successes outcomes)%nat) /\
      List.length outcomes = List.length items /\
      insert_log w' = insert_log w ++ outcomes /\
      console w' = console w ++ flat_map location_lines outcomes /\
      fetch_log w' = fetch_log w /\
      clock_reads w' = (49 * List.length items + clock_reads w)%nat /\
      List.length (satellite_data w')
      = (49 * successes outcomes + List.length (satellite_data w))%nat.
Proof.
  induction items as [|location items IH]; intros total w Hitems.
  - exists w, []. cbn. rewrite !app_nil_r, Nat.add_0_r. repeat split; reflexivity.
  - inversion Hitems as [|? ? Hloc Hrest]; subst.
    destruct (process_run total w Hloc)
      as (w1 & ok & Hrun & Hlog & Hcons & Hfetch & Hclock & Htable).
    destruct (IH (if ok then total + 49 else total)%nat w1 Hrest)
      as (w2 & outcomes & Hrun2 & Hlen & Hlog2 & Hcons2 & Hfetch2 & Hclock2 & Htable2).
    exists w2, (ok :: outcomes). cbn [for_of].
    erewrite bind_normal by exact Hrun. rewrite Hrun2.
    change (ok :: outcomes) with ([ok] ++ outcomes).
    rewrite successes_app.
    split; [destruct ok; cbn; do 2 f_equal; lia|].
    split; [cbn; lia|].
    split; [rewrite Hlog2, Hlog, <- app_assoc; reflexivity|].
    split; [rewrite Hcons2, Hcons, <- app_assoc; reflexivity|].
    split; [congruence|].
    split; [rewrite Hclock2, Hclock; cbn [List.length]; lia|].
    rewrite Htable2, Htable. destruct ok; cbn; lia.
Qed.

End LocationLoop.

(* ================================================================== *)
(** * The ingestion function: location selection and summary *)

(** The selection rule as the code has it: [locations] when it is
    truthy (an array always is); else the single given location when
    [latitude] and [longitude] are both truthy; else the defaults. *)
Lemma locationsToProcess_rule (latitude longitude locations : value) :
  Ingest.locationsToProcess latitude longitude locations
  = if truthy locations then locations
    else if truthy latitude && truthy longitude
         then Some (JArr [object [("lat", latitude); ("lng", longitude)]%string])
         else Some Ingest.defaultLocations.
Proof.
  unfold Ingest.locationsToProcess, js_or, js_and.
  destruct (truthy locations); [reflexivity|].
  destruct (truthy latitude) eqn:Hlat; cbn [andb]; [reflexivity|].
  rewrite Hlat. reflexivity.
Qed.

(** C4 (evaluation at the failing inputs).  A latitude or a longitude
    equal to 0 is falsy, so [latitude && longitude] takes the branch of
    the default cities: with no [locations], a request that gives
    latitude 0 (or longitude 0) together with any other coordinate is
    answered by processing the five default locations, not the single
    location given.  On the request
    [{"trigger":"manual","source":"api","latitude":0,"longitude":-74.006}]
    the response reports locationsProcessed 5 and dataPointsInserted
    245. *)
Theorem zero_coordinate_selects_defaults :
  (forall longitude : value,
      Ingest.locationsToProcess (Some (JNum 0)) longitude undefined
      = Some Ingest.defaultLocations) /\
  (forall latitude : value,
      Ingest.locationsToProcess latitude (Some (JNum 0)) undefined
      = Some Ingest.defaultLocations) /\
  exists w' r,
    Ingest.serve Demo.platform (Demo.post Demo.equator_request) initial_world
    = (w', Normal r) /\
    status r = 200%Z /\
    opt_get (body r) "locationsProcessed" = Some (JNum 5) /\
    opt_get (body r) "dataPointsInserted" = Some (JNum 245).
Proof.
  split; [|split].
  - intros longitude. reflexivity.
  - intros latitude. rewrite locationsToProcess_rule.
    cbn [truthy undefined]. rewrite andb_false_r. reflexivity.
  - eexists _, _. split; [vm_compute; reflexivity|].
    repeat split; reflexivity.
Qed.

(** The summary of a request whose locations to process form an array
    of entries none of which is [null]. *)
Lemma ingest_serve_array
  (P : Platform) (req : Request) (w : World)
  (props : list (string * json)) (items : list json) :
  method req <> "OPTIONS"%string ->
  json_body req = Normal (JObj props) ->
  Ingest.locationsToProcess (assoc "latitude" props) (assoc "longitude" props)
    (assoc "locations" props) = Some (JArr items) ->
  Forall (fun location => location <> JNull) items ->
  createClient P (Deno_env_get P "SUPABASE_URL")
    (Deno_env_get P "SUPABASE_SERVICE_ROLE_KEY") = Normal tt ->
  exists (w' : World) (outcomes : list bool) (timestamp : string),
    Ingest.serve P req w
    = (w', Normal
             (mkResponse 200 Ingest.json_headers
                (Some (object
                         [("success", Some (JBool true));
                          ("message", Some (JStr "Satellite data ingestion complete"));
                          ("trigger", assoc "trigger" props);
                          ("source", assoc "source" props);
                          ("locationsProcessed", Some (number (List.length items)));
                          ("dataPointsInserted", Some (number (49 * successes outcomes)));
                          ("timestamp", Some (JStr timestamp))]%string)))) /\
    List.length outcomes = List.length items /\
    insert_log w' = insert_log w ++ outcomes /\
    List.length (errors_of (console w'))
    = (List.length (errors_of (console w)) + failures outcomes)%nat /\
    List.length (satellite_data w')
    = (List.length (satellite_data w) + 49 * successes outcomes)%nat.
Proof.
  intros Hmethod Hbody Hselect Hitems Hclient.
  unfold Ingest.serve. apply String.eqb_neq in Hmethod. rewrite Hmethod.
  unfold try_catch, Ingest.ingest.
  unfold await. rewrite Hbody, Hclient.
  cbn [bind ret member get console_log Ingest.getCopernicusToken
       random_calls clock_reads insert_log satellite_data fetch_log console].
  rewrite Hselect.
  cbn [Ingest.iterator iterate bind ret].
  match goal with
  | |- context [bind (for_of _ _ _) _ ?w0] =>
      destruct (locations_loop P "demo-mode" 0 w0 Hitems)
        as (w1 & outcomes & Hrun & Hlen & Hlog & Hcons & _ & _ & Htable)
  end.
  erewrite bind_normal by exact Hrun.
  cbn [Ingest.length_prop length_of bind ret now_ISO console_log
       random_calls clock_reads insert_log satellite_data fetch_log console] in *.
  eexists _, outcomes, _. split; [reflexivity|].
  cbn [insert_log console satellite_data].
  split; [exact Hlen|]. split; [exact Hlog|]. split.
  - rewrite Hcons, !errors_of_app, !length_app, errors_of_location_lines.
    cbn. lia.
  - rewrite Htable. lia.
Qed.

(** C5.  A request whose [locations] is an array of K entries (none of
    them [null]), on a function whose database client could be built:
    whatever the outcomes of the K inserts, the response is a 200 with
    success true, locationsProcessed = K and dataPointsInserted =
    49 * (number of inserts that succeeded).  Every location gets its
    insert attempt (one outcome per location is recorded), every failed
    insert leaves one ERROR line on the console, and the table gains 49
    rows per successful insert. *)
Theorem partial_failure_summary
  (P : Platform) (req : Request) (w : World) (request : json) (locations : list json) :
  method req <> "OPTIONS"%string ->
  json_body req = Normal request ->
  get request "locations" = Some (JArr locations) ->
  Forall (fun location => location <> JNull) locations ->
  createClient P (Deno_env_get P "SUPABASE_URL")
    (Deno_env_get P "SUPABASE_SERVICE_ROLE_KEY") = Normal tt ->
  exists (w' : World) (outcomes : list bool) (timestamp : string),
    Ingest.serve P req w
    = (w', Normal
             (mkResponse 200 Ingest.json_headers
                (Some (object
                         [("success", Some (JBool true));
                          ("message", Some (JStr "Satellite data ingestion complete"));
                          ("trigger", get request "trigger");
                          ("source", get request "source");
                          ("locationsProcessed", Some (number (List.length locations)));
                          ("dataPointsInserted", Some (number (49 * successes outcomes)));
                          ("timestamp", Some (JStr timestamp))]%string)))) /\
    List.length outcomes = List.length locations /\
    insert_log w' = insert_log w ++ outcomes /\
    List.length (errors_of (console w'))
    = (List.length (errors_of (console w)) + failures outcomes)%nat /\
    List.length (satellite_data w')
    = (List.length (satellite_data w) + 49 * successes outcomes)%nat.
Proof.
  intros Hmethod Hbody Hlocations Hitems Hclient.
  destruct request as [| | | | |props]; try discriminate Hlocations.
  cbn [get] in *.
  apply ingest_serve_array; try assumption.
  rewrite locationsToProcess_rule, Hlocations. reflexivity.
Qed.

Lemma partial_failure_summary_witness :
  "POST"%string <> "OPTIONS"%string /\
  exists (w' : World) (r : Response),
    Ingest.serve Demo.platform
      (Demo.post (JObj [("locations",
                         JArr [Ingest.location 40.7128 (-74.006);
                               Ingest.location 1000 0])]%string))
      initial_world = (w', Normal r) /\
    status r = 200%Z /\
    opt_get (body r) "locationsProcessed" = Some (number 2) /\
    List.length (insert_log w') = 2%nat.
Proof.
  split; [discriminate|].
  destruct (@partial_failure_summary Demo.platform
              (Demo.post (JObj [("locations",
                                 JArr [Ingest.location 40.7128 (-74.006);
                                       Ingest.location 1000 0])]%string))
              initial_world _ _
              ltac:(discriminate) eq_refl eq_refl
              ltac:(repeat constructor; discriminate) eq_refl)
    as (w' & outcomes & timestamp & Hrun & Hlen & Hlog & _).
  eexists w', _. split; [exact Hrun|].
  split; [reflexivity|]. split; [reflexivity|].
  rewrite Hlog. cbn [initial_world insert_log app]. exact Hlen.
Defined.

(* ================================================================== *)
(** * The ingestion function: exceptions *)

Section Returns.

Lemma returns_ret {A} (a : A) (Q : A -> Prop) : Q a -> returns (ret a) Q.
Proof. intros H w w' a' [= _ <-]. exact H. Qed.

Lemma returns_bind {A B} (m : Eff A) (k : A -> Eff B) (Q : B -> Prop) :
  (forall a, returns (k a) Q) -> returns (bind m k) Q.
Proof.
  intros Hk w w' b. unfold bind.
  destruct (m w) as [w1 [a|e]]; [apply Hk|discriminate].
Qed.

End Returns.

(** The [catch] block of the ingestion function always completes, with
    the 500 response. *)
Lemma ingest_on_error_run (P : Platform) (e : Thrown) (w : World) :
  Ingest.on_error P e w
  = (logged [(ERROR, "Error in ingest-satellite-data function:"%string)] (drew 0 1 w),
     Normal (mkResponse 500 Ingest.json_headers
               (Some (error_body e (Date_toISOString P (clock_reads w)))))).
Proof. reflexivity. Qed.

(** The two ways a request (not a preflight) is answered. *)
Lemma ingest_serve_cases (P : Platform) (req : Request) (w : World) :
  method req <> "OPTIONS"%string ->
  (exists w1 r,
      Ingest.ingest P req w = (w1, Normal r) /\
      Ingest.serve P req w = (w1, Normal r)) \/
  (exists w1 e,
      Ingest.ingest P req w = (w1, Throw e) /\
      Ingest.serve P req w
      = (logged [(ERROR, "Error in ingest-satellite-data function:"%string)]
           (drew 0 1 w1),
         Normal (mkResponse 500 Ingest.json_headers
                   (Some (error_body e (Date_toISOString P (clock_reads w1))))))).
Proof.
  intros Hmethod. apply String.eqb_neq in Hmethod.
  unfold Ingest.serve. rewrite Hmethod. unfold try_catch.
  destruct (Ingest.ingest P req w) as [w1 [r|e]].
  - left. exists w1, r. split; reflexivity.
  - right. exists w1, e. split; [reflexivity|apply ingest_on_error_run].
Qed.

(** C7.  On a request that is not a CORS preflight: whenever the body
    of the handler throws -- at any point, with any thrown value [e] --
    the response is a 500 whose body is exactly
    {success: false, error: <message of e>, timestamp: <the clock's ISO
    string>}; an unparseable request body is such a case; and a 200 is
    answered only when the body of the handler completed without
    throwing, so no 200 stands for a run that threw. *)
Theorem top_level_exception_is_500 (P : Platform) (req : Request) (w : World) :
  method req <> "OPTIONS"%string ->
  (forall w1 e,
      Ingest.ingest P req w = (w1, Throw e) ->
      exists w',
        Ingest.serve P req w
        = (w', Normal (mkResponse 500 Ingest.json_headers
                         (Some (error_body e (Date_toISOString P (clock_reads w1))))))) /\
  (forall e,
      json_body req = Throw e ->
      exists w',
        Ingest.serve P req w
        = (w', Normal (mkResponse 500 Ingest.json_headers
                         (Some (error_body e (Date_toISOString P (clock_reads w))))))) /\
  (forall w' r,
      Ingest.serve P req w = (w', Normal r) ->
      status r = 200%Z ->
      Ingest.ingest P req w = (w', Normal r)) /\
  (exists w' r, Ingest.serve P req w = (w', Normal r)).
Proof.
  intros Hmethod. apply String.eqb_neq in Hmethod.
  assert (Hthrow : forall w1 e,
             Ingest.ingest P req w = (w1, Throw e) ->
             Ingest.serve P req w
             = (logged [(ERROR, "Error in ingest-satellite-data function:"%string)]
                  (drew 0 1 w1),
                Normal (mkResponse 500 Ingest.json_headers
                          (Some (error_body e (Date_toISOString P (clock_reads w1))))))).
  { intros w1 e Hrun. unfold Ingest.serve. rewrite Hmethod.
    unfold try_catch. rewrite Hrun. apply ingest_on_error_run. }
  split; [|split; [|split]].
  - intros w1 e Hrun. eexists. apply Hthrow. exact Hrun.
  - intros e Hbody. eexists. apply Hthrow.
    unfold Ingest.ingest. apply bind_throw. unfold await. rewrite Hbody. reflexivity.
  - intros w' r Hserve Hstatus.
    destruct (Ingest.ingest P req w) as [w1 [r1|e]] eqn:Hrun.
    + unfold Ingest.serve in Hserve. rewrite Hmethod in Hserve.
      unfold try_catch in Hserve. rewrite Hrun in Hserve. exact Hserve.
    + rewrite (Hthrow w1 e eq_refl) in Hserve.
      injection Hserve as _ <-. discriminate Hstatus.
  - destruct (Ingest.ingest P req w) as [w1 [r1|e]] eqn:Hrun.
    + exists w1, r1. unfold Ingest.serve. rewrite Hmethod.
      unfold try_catch. rewrite Hrun. reflexivity.
    + eexists _, _. apply Hthrow. reflexivity.
Qed.

Lemma top_level_exception_is_500_witness :
  "POST"%string <> "OPTIONS"%string /\
  exists w',
    Ingest.serve Demo.platform
      (mkRequest "POST" (Throw (ThrownError "Unexpected end of JSON input")))
      initial_world
    = (w', Normal (mkResponse 500 Ingest.json_headers
                     (Some (error_body (ThrownError "Unexpected end of JSON input")
                              "2025-11-09T12:00:00.000Z")))).
Proof.
  split; [discriminate|].
  destruct (@top_level_exception_is_500 Demo.platform
              (mkRequest "POST" (Throw (ThrownError "Unexpected end of JSON input")))
              initial_world ltac:(discriminate)) as (_ & Hbody & _).
  apply Hbody. reflexivity.
Defined.

(* ================================================================== *)
(** * The webhook *)

(** The [catch] block of the webhook always completes, with a 200. *)
Lemma webhook_on_error_run (P : Platform) (e : Thrown) (w : World) :
  Webhook.on_error P e w
  = (logged [(ERROR, "Error in satellite-webhook function:"%string)] (drew 0 1 w),
     Normal (mkResponse 200 Webhook.json_headers
               (Some (error_body e (Date_toISOString P (clock_reads w)))))).
Proof. reflexivity. Qed.

Lemma relay_returns_200 (P : Platform) (req : Request) :
  returns (Webhook.relay P req) (fun r => status r = 200%Z).
Proof.
  unfold Webhook.relay.
  repeat (apply returns_bind; intro).
  apply returns_ret. reflexivity.
Qed.

(** The webhook up to its [fetch], for an envelope that decodes, and
    what it makes of the reply. *)
Section WebhookRun.

Variable P : Platform.
Variable req : Request.
Variable w : World.
Variables envelope message messageData : json.
Variable text : string.
Hypothesis Hbody : json_body req = Normal envelope.
Hypothesis Hmessage : get envelope "message" = Some message.
Hypothesis Htruthy : truthy (Some message) = true.
Hypothesis Hatob : atob P (get message "data") = Normal text.
Hypothesis Hparse : JSON_parse P text = Normal messageData.
Hypothesis Hdata : messageData <> JNull.
Hypothesis Hclient : createClient P (Deno_env_get P "SUPABASE_URL")
  (Deno_env_get P "SUPABASE_SERVICE_ROLE_KEY") = Normal tt.

Lemma relay_to_fetch :
  Webhook.relay P req w
  = match fetch P (relayed_call P messageData) (at_fetch (relayed_call P messageData) w) with
    | (w2, Normal reply) =>
        match reply_json reply with
        | Normal JNull => 
            (logged [(LOG, "Satellite data ingestion triggered:"%string);
                     (LOG, "Event processing complete:"%string)] (drew 0 1 w2),
             Throw (ThrownError "Cannot read properties of null"))
        | Normal result =>
            (logged [(LOG, "Satellite data ingestion triggered:"%string);
                     (LOG, "Event processing complete:"%string)] (drew 0 1 w2),
             Normal (processed_response (get message "messageId")
                       (get messageData "eventType")
                       (get result "dataPointsInserted")))
        | Throw e => (w2, Throw e)
        end
    | (w2, Throw e) => (w2, Throw e)
    end.
Proof.
  unfold Webhook.relay.
  assert (Henv : envelope <> JNull) by (intros ->; discriminate Hmessage).
  assert (Hmsg : message <> JNull) by (intros ->; discriminate Htruthy).
  unfold await. rewrite Hbody.
  cbn [bind ret console_log].
  rewrite (member_defined _ Henv). cbn [bind ret].
  rewrite Hmessage, Htruthy.
  cbn [bind ret negb].
  rewrite !(member_defined _ Hmsg).
  cbn [bind ret]. rewrite Hatob. rewrite Hparse.
  cbn [bind ret console_log].
  rewrite !(member_defined _ Hdata).
  cbn [bind ret console_log random_calls clock_reads insert_log satellite_data fetch_log console].
  rewrite Hclient. 
  unfold bind at 1. unfold do_fetch.
  cbn [random_calls clock_reads insert_log satellite_data fetch_log console].
  match goal with
  | |- (let (_, _) := fetch P ?call ?w0 in _) = _ =>
      replace w0 with (at_fetch (relayed_call P messageData) w)
        by (unfold at_fetch; f_equal; rewrite <- !app_assoc; reflexivity);
      change call with (relayed_call P messageData)
  end.
  destruct (fetch P _ _) as [w2 [reply|e]]; [|reflexivity].
  unfold bind at 1.
  destruct (reply_json reply) as [result|e]; [|reflexivity].
  unfold processed_response.
  destruct result;
    cbn [bind ret console_log now_ISO member get logged drew Nat.add
         random_calls clock_reads insert_log satellite_data fetch_log console];
    rewrite <- !app_assoc; reflexivity.
Qed.
End WebhookRun.

(** The ways the webhook's [try] block throws. *)
Lemma relay_unparseable_body (P : Platform) (req : Request) (w : World) (e : Thrown) :
  json_body req = Throw e -> Webhook.relay P req w = (w, Throw e).
Proof.
  intros H. unfold Webhook.relay. apply bind_throw.
  unfold await. rewrite H. reflexivity.
Qed.

Lemma relay_invalid_format (P : Platform) (req : Request) (w : World) (envelope : json) :
  json_body req = Normal envelope ->
  envelope <> JNull ->
  truthy (get envelope "message") = false ->
  Webhook.relay P req w
  = (logged [(LOG, "Received Google Cloud Pub/Sub webhook:"%string)] w,
     Throw (ThrownError "Invalid Pub/Sub message format")).
Proof.
  intros Hbody Henv Hfalsy. unfold Webhook.relay, await. rewrite Hbody.
  cbn [bind ret console_log]. rewrite (member_defined _ Henv).
  cbn [bind ret]. rewrite Hfalsy. reflexivity.
Qed.

Lemma relay_decode_failure
  (P : Platform) (req : Request) (w : World) (envelope message : json) (e : Thrown) :
  json_body req = Normal envelope ->
  get envelope "message" = Some message ->
  truthy (Some message) = true ->
  atob P (get message "data") = Throw e
  \/ (exists text, atob P (get message "data") = Normal text /\
                   JSON_parse P text = Throw e) ->
  Webhook.relay P req w
  = (logged [(LOG, "Received Google Cloud Pub/Sub webhook:"%string)] w, Throw e).
Proof.
  intros Hbody Hmessage Htruthy Hfail.
  assert (Henv : envelope <> JNull) by (intros ->; discriminate Hmessage).
  assert (Hmsg : message <> JNull) by (intros ->; discriminate Htruthy).
  unfold Webhook.relay, await. rewrite Hbody.
  cbn [bind ret console_log]. rewrite (member_defined _ Henv).
  cbn [bind ret]. rewrite Hmessage, Htruthy.
  cbn [bind ret negb]. rewrite !(member_defined _ Hmsg). cbn [bind ret].
  destruct Hfail as [Hatob|(text & Hatob & Hparse)]; rewrite Hatob.
  - reflexivity.
  - rewrite Hparse. reflexivity.
Qed.

(** C6.  Every request to the webhook -- the CORS preflight included --
    is answered, and with status 200: when the [try] block completes
    the response it built has status 200, and when anything is thrown
    (by the parsing of the envelope, by the base64 or JSON decoding, by
    the client library, by the downstream call or by the reading of its
    reply) the [catch] block answers 200 with the body
    {success: false, error: <message>, timestamp}. *)
Theorem webhook_always_200 (P : Platform) (req : Request) (w : World) :
  exists w' r,
    Webhook.serve P req w = (w', Normal r) /\
    status r = 200%Z /\
    (method req <> "OPTIONS"%string ->
     forall w1 e,
       Webhook.relay P req w = (w1, Throw e) ->
       body r = Some (error_body e (Date_toISOString P (clock_reads w1)))).
Proof.
  unfold Webhook.serve.
  destruct (method req =? "OPTIONS")%string eqn:Hmethod.
  - eexists _, _. split; [reflexivity|]. split; [reflexivity|].
    intros Hneq. apply String.eqb_eq in Hmethod. contradiction.
  - unfold try_catch.
    destruct (Webhook.relay P req w) as [w1 [r|e]] eqn:Hrun.
    + exists w1, r. split; [reflexivity|]. split.
      * eapply relay_returns_200. exact Hrun.
      * intros _ w2 e [=].
    + rewrite webhook_on_error_run. eexists _, _.
      split; [reflexivity|]. split; [reflexivity|].
      intros _ w2 e' [= <- <-]. reflexivity.
Qed.

Lemma relay_downstream_failure
  (P : Platform) (req : Request) (w w2 : World)
  (envelope message messageData : json) (text : string) (e : Thrown) :
  json_body req = Normal envelope ->
  get envelope "message" = Some message ->
  truthy (Some message) = true ->
  atob P (get message "data") = Normal text ->
  JSON_parse P text = Normal messageData ->
  messageData <> JNull ->
  createClient P (Deno_env_get P "SUPABASE_URL")
    (Deno_env_get P "SUPABASE_SERVICE_ROLE_KEY") = Normal tt ->
  fetch P (relayed_call P messageData) (at_fetch (relayed_call P messageData) w)
  = (w2, Throw e) ->
  Webhook.relay P req w = (w2, Throw e).
Proof.
  intros Hbody Hmessage Htruthy Hatob Hparse Hdata Hclient Hfetch.
  rewrite (relay_to_fetch P req w Hbody Hmessage Htruthy Hatob Hparse Hdata Hclient).
  rewrite Hfetch. reflexivity.
Qed.

(** C10 (counterexample).  The envelope decodes correctly and the
    downstream call returns a parseable JSON body -- the document
    [null] -- and the webhook answers success: false: reading
    [dataPointsInserted] of [null] throws inside the [try] block. *)
Lemma null_ingest_result_is_a_failure :
  JSON_parse Demo.null_reply Demo.sample_event_text = Normal Demo.sample_event /\
  fetch Demo.null_reply (relayed_call Demo.null_reply Demo.sample_event)
    (at_fetch (relayed_call Demo.null_reply Demo.sample_event) initial_world)
  = (at_fetch (relayed_call Demo.null_reply Demo.sample_event) initial_world,
     Normal (mkHttpReply 200 (Normal JNull))) /\
  exists w' r,
    Webhook.serve Demo.null_reply
      (Demo.post (Demo.envelope Demo.sample_event_text)) initial_world
    = (w', Normal r) /\
    opt_get (body r) "success" = Some (JBool false) /\
    opt_get (body r) "success" <> Some (JBool true) /\
    opt_get (body r) "error" = Some (JStr "Cannot read properties of null").
Proof.
  split; [reflexivity|]. split; [reflexivity|].
  eexists _, _. split; [vm_compute; reflexivity|].
  split; [reflexivity|]. split; [discriminate|reflexivity].
Qed.

(** C10 (amended).  For every envelope that decodes (a truthy
    [message] whose [data] base64-decodes to JSON other than [null]),
    on a function whose client could be built, and for every reply of
    the downstream call whose body parses to JSON other than [null]:
    whatever the reply's status code and whatever the body holds
    besides [dataPointsInserted], the webhook answers 200 with
    success: true and with dataPointsProcessed equal to the body's
    dataPointsInserted (left out exactly when the body has none, as in
    the {success: false, error, timestamp} body of a failed ingestion). *)
Theorem webhook_success_is_transport_level
  (P : Platform) (req : Request) (w w2 : World)
  (envelope message messageData result : json) (text : string) (status_code : Z) :
  method req <> "OPTIONS"%string ->
  json_body req = Normal envelope ->
  get envelope "message" = Some message ->
  truthy (Some message) = true ->
  atob P (get message "data") = Normal text ->
  JSON_parse P text = Normal messageData ->
  messageData <> JNull ->
  createClient P (Deno_env_get P "SUPABASE_URL")
    (Deno_env_get P "SUPABASE_SERVICE_ROLE_KEY") = Normal tt ->
  fetch P (relayed_call P messageData) (at_fetch (relayed_call P messageData) w)
  = (w2, Normal (mkHttpReply status_code (Normal result))) ->
  result <> JNull ->
  exists w' r,
    Webhook.serve P req w = (w', Normal r) /\
    r = processed_response (get message "messageId") (get messageData "eventType")
          (get result "dataPointsInserted") /\
    status r = 200%Z /\
    opt_get (body r) "success" = Some (JBool true) /\
    opt_get (body r) "dataPointsProcessed" = get result "dataPointsInserted".
Proof.
  intros Hmethod Hbody Hmessage Htruthy Hatob Hparse Hdata Hclient Hfetch Hresult.
  apply String.eqb_neq in Hmethod.
  unfold Webhook.serve. rewrite Hmethod. unfold try_catch.
  rewrite (relay_to_fetch P req w Hbody Hmessage Htruthy Hatob Hparse Hdata Hclient).
  rewrite Hfetch. cbn [reply_json].
  destruct result as [| | | | |props]; [contradiction| | | | |];
    (eexists _, _; split; [reflexivity|];
     split; [reflexivity|]; split; [reflexivity|];
     unfold processed_response; cbn [body opt_get get object];
     destruct (get message "messageId"), (get messageData "eventType");
     try destruct (assoc "dataPointsInserted" props);
     split; reflexivity).
Qed.

Lemma webhook_success_is_transport_level_witness :
  "POST"%string <> "OPTIONS"%string /\
  exists w' r,
    Webhook.serve
      (with_fetch Demo.platform
         (fun _ w => (w, Normal (mkHttpReply 500
                                   (Normal (error_body (ThrownError "boom") "now"))))))
      (Demo.post (Demo.envelope Demo.sample_event_text)) initial_world
    = (w', Normal r) /\
    status r = 200%Z /\
    opt_get (body r) "success" = Some (JBool true) /\
    opt_get (body r) "dataPointsProcessed" = None.
Proof.
  split; [discriminate|].
  destruct (@webhook_success_is_transport_level
              (with_fetch Demo.platform
                 (fun _ w => (w, Normal (mkHttpReply 500
                                           (Normal (error_body (ThrownError "boom") "now"))))))
              (Demo.post (Demo.envelope Demo.sample_event_text)) initial_world
              _ _ _ Demo.sample_event _ Demo.sample_event_text 500%Z
              ltac:(discriminate) eq_refl eq_refl eq_refl eq_refl eq_refl
              ltac:(discriminate) eq_refl eq_refl ltac:(discriminate))
    as (w' & r & Hrun & _ & Hstatus & Hsuccess & Hpoints).
  exists w', r. repeat split; assumption.
Defined.

(* ================================================================== *)
(** * The webhook in front of the ingestion function *)

Section Deployment.

Variable P : Platform.

Lemma ingestion_keeps_fetch_log (req : Request) :
  preserves same_fetch_log (Ingest.serve P req).
Proof.
  apply preserves_ingest_serve; unfold same_fetch_log.
  - reflexivity.
  - intros a b c Hab Hbc. congruence.
  - reflexivity.
  - reflexivity.
  - intros lat lng n c w.
    destruct (insert_run P (lattice P lat lng n c) w)
      as (w' & error & Hrun & _ & _ & Hfetch & _).
    rewrite Hrun. exact Hfetch.
Qed.

Lemma ingest_returns_body (req : Request) :
  returns (Ingest.ingest P req)
    (fun r => exists props, body r = Some (JObj props)).
Proof.
  unfold Ingest.ingest.
  repeat (apply returns_bind; intro).
  apply returns_ret. eexists. reflexivity.
Qed.

(** The ingestion function behind [fetch]: it always replies, with a
    JSON object, and issues no [fetch] of its own. *)
Lemma ingest_endpoint_run (call : FetchCall) (w0 : World) :
  fetch_method call <> "OPTIONS"%string ->
  exists w1 response props,
    Ingest.serve P (mkRequest (fetch_method call) (Normal (fetch_body call))) w0
    = (w1, Normal response) /\
    body response = Some (JObj props) /\
    ingest_endpoint P call w0
    = (w1, Normal (mkHttpReply (status response) (Normal (JObj props)))) /\
    fetch_log w1 = fetch_log w0.
Proof.
  intros Hmethod.
  pose proof (ingestion_keeps_fetch_log
                (mkRequest (fetch_method call) (Normal (fetch_body call))) w0) as Hlog.
  unfold same_fetch_log in Hlog.
  destruct (@ingest_serve_cases P
              (mkRequest (fetch_method call) (Normal (fetch_body call))) w0 Hmethod)
    as [(w1 & r & Hing & Hserve)|(w1 & e & _ & Hserve)].
  - destruct (ingest_returns_body _ _ Hing) as [props Hprops].
    exists w1, r, props. unfold ingest_endpoint.
    rewrite Hserve in *. cbn [fst] in Hlog. rewrite Hprops.
    repeat split; try reflexivity. exact Hlog.
  - eexists _, _, _. unfold ingest_endpoint. rewrite Hserve in *.
    cbn [fst body status] in *.
    split; [reflexivity|]. split; [reflexivity|]. split; [reflexivity|exact Hlog].
Qed.

End Deployment.

(** C8.  For every envelope whose [message.data] decodes to JSON with
    eventType, satellite, location: {latitude, longitude} and severity,
    on a deployment whose client can be built and whose [fetch] reaches
    the ingestion function: the webhook issues exactly one [fetch], a
    POST to the ingestion function with the body {trigger: "pubsub",
    source: "google-cloud", latitude, longitude, eventType, satellite,
    severity} holding the decoded values; it answers 200 with
    success: true and with dataPointsProcessed equal to the
    dataPointsInserted of the ingestion function's response; and when
    the decoded latitude and longitude are both truthy the ingestion
    processes that single location, so that with no insert error
    ([ok = true]) dataPointsProcessed is 49. *)
Theorem webhook_relays_event
  (P : Platform) (req : Request) (w : World)
  (envelope message messageData location : json)
  (latitude longitude eventType satellite severity : json) (text : string) :
  method req <> "OPTIONS"%string ->
  json_body req = Normal envelope ->
  get envelope "message" = Some message ->
  truthy (Some message) = true ->
  atob P (get message "data") = Normal text ->
  JSON_parse P text = Normal messageData ->
  get messageData "eventType" = Some eventType ->
  get messageData "satellite" = Some satellite ->
  get messageData "location" = Some location ->
  get location "latitude" = Some latitude ->
  get location "longitude" = Some longitude ->
  get messageData "severity" = Some severity ->
  createClient P (Deno_env_get P "SUPABASE_URL")
    (Deno_env_get P "SUPABASE_SERVICE_ROLE_KEY") = Normal tt ->
  exists (w' : World) (call : FetchCall) (ingestResult : json),
    Webhook.serve (deployed P) req w
    = (w', Normal (processed_response (get message "messageId") (Some eventType)
                     (get ingestResult "dataPointsInserted"))) /\
    fetch_log w' = fetch_log w ++ [call] /\
    fetch_method call = "POST"%string /\
    fetch_url call
    = (Webhook.template (Deno_env_get P "SUPABASE_URL")
       ++ "/functions/v1/ingest-satellite-data")%string /\
    fetch_body call
    = JObj [("trigger", JStr "pubsub"); ("source", JStr "google-cloud");
            ("latitude", latitude); ("longitude", longitude);
            ("eventType", eventType); ("satellite", satellite);
            ("severity", severity)]%string /\
    (exists w0 w1 response,
        Ingest.serve P (mkRequest "POST" (Normal (fetch_body call))) w0
        = (w1, Normal response) /\
        body response = Some ingestResult) /\
    (truthy (Some latitude) = true -> truthy (Some longitude) = true ->
     exists ok : bool,
       insert_log w' = insert_log w ++ [ok] /\
       get ingestResult "dataPointsInserted" = Some (number (if ok then 49 else 0)) /\
       get ingestResult "locationsProcessed" = Some (number 1)).
Proof.
  intros Hmethod Hbody Hmessage Htruthy Hatob Hparse HeventType Hsatellite
         Hlocation Hlatitude Hlongitude Hseverity Hclient.
  assert (Hdata : messageData <> JNull) by (intros ->; discriminate Hlocation).
  apply String.eqb_neq in Hmethod.
  unfold Webhook.serve. rewrite Hmethod. unfold try_catch.
  rewrite (@relay_to_fetch (deployed P) req w envelope message messageData text
             Hbody Hmessage Htruthy Hatob Hparse Hdata Hclient).
  set (call := relayed_call (deployed P) messageData).
  assert (Hcall_body :
            fetch_body call
            = JObj [("trigger", JStr "pubsub"); ("source", JStr "google-cloud");
                    ("latitude", latitude); ("longitude", longitude);
                    ("eventType", eventType); ("satellite", satellite);
                    ("severity", severity)]%string).
  { subst call. unfold relayed_call; cbn [fetch_body].
    rewrite HeventType, Hsatellite, Hlocation, Hseverity.
    assert (Hloc : location <> JNull) by (intros ->; discriminate Hlatitude).
    destruct location; try contradiction; cbn [opt_get];
      rewrite Hlatitude, Hlongitude; reflexivity. }
  assert (Hpost : fetch_method call <> "OPTIONS"%string) by (subst call; discriminate).
  change (fetch (deployed P) call) with (ingest_endpoint P call).
  destruct (ingest_endpoint_run P call (at_fetch call w) Hpost)
    as (w1 & response & props & Hserve & Hresponse & Hend & Hlog).
  rewrite Hend. cbn [reply_json].
  rewrite HeventType.
  eexists _, call, (JObj props).
  split; [reflexivity|].
  cbn [logged drew fetch_log insert_log].
  split; [rewrite Hlog; reflexivity|].
  split; [reflexivity|]. split; [reflexivity|].
  split; [exact Hcall_body|].
  split; [exists (at_fetch call w), w1, response; split; assumption|].
  intros Hlat Hlng.
  change (fetch_method call) with "POST"%string in Hserve.
  rewrite Hcall_body in Hserve.
  destruct (@ingest_serve_array P
              (mkRequest "POST"
                 (Normal (JObj [("trigger", JStr "pubsub"); ("source", JStr "google-cloud");
                                ("latitude", latitude); ("longitude", longitude);
                                ("eventType", eventType); ("satellite", satellite);
                                ("severity", severity)]%string)))
              (at_fetch call w) _
              [object [("lat", Some latitude); ("lng", Some longitude)]%string]
              ltac:(discriminate) eq_refl)
    as (w1' & outcomes & timestamp & Hrun & Hlen & Hins & _).
  { rewrite locationsToProcess_rule. cbn [assoc String.eqb Ascii.eqb Bool.eqb].
    rewrite Hlat, Hlng. reflexivity. }
  { repeat constructor. discriminate. }
  { exact Hclient. }
  rewrite Hserve in Hrun. injection Hrun as <- ->.
  cbn [body] in Hresponse. injection Hresponse as <-.
  destruct outcomes as [|ok [|]]; try discriminate Hlen.
  exists ok. split; [exact Hins|].
  split; [destruct ok; reflexivity|reflexivity].
Qed.

Lemma webhook_relays_event_witness :
  "POST"%string <> "OPTIONS"%string /\
  truthy (Some (JNum 40.7128)) = true /\
  truthy (Some (JNum (-74.006))) = true /\
  exists (w' : World) (call : FetchCall) (ingestResult : json) (ok : bool),
    Webhook.serve (deployed Demo.platform)
      (Demo.post (Demo.envelope Demo.sample_event_text)) initial_world
    = (w', Normal (processed_response (Some (JStr "1"))
                     (Some (JStr "new_sentinel_data"))
                     (get ingestResult "dataPointsInserted"))) /\
    fetch_log w' = [call] /\
    insert_log w' = [ok] /\
    get ingestResult "dataPointsInserted" = Some (number (if ok then 49 else 0)).
Proof.
  split; [discriminate|]. split; [reflexivity|]. split; [reflexivity|].
  destruct (@webhook_relays_event Demo.platform
              (Demo.post (Demo.envelope Demo.sample_event_text)) initial_world
              _ _ Demo.sample_event _ _ _ _ _ _ Demo.sample_event_text
              ltac:(discriminate) eq_refl eq_refl eq_refl eq_refl eq_refl
              eq_refl eq_refl eq_refl eq_refl eq_refl eq_refl eq_refl)
    as (w' & call & ingestResult & Hrun & Hfetch & _ & _ & _ & _ & Hsingle).
  destruct (Hsingle eq_refl eq_refl) as (ok & Hins & Hpoints & _).
  exists w', call, ingestResult, ok.
  split; [exact Hrun|]. split; [exact Hfetch|]. split; [exact Hins|exact Hpoints].
Defined.

(** The scenario of the specification, run on the demonstration
    platform: the webhook reports 49 points. *)
Example webhook_scenario :
  exists w' r,
    Webhook.serve (deployed Demo.platform)
      (Demo.post (Demo.envelope Demo.sample_event_text)) initial_world
    = (w', Normal r) /\
    opt_get (body r) "dataPointsProcessed" = Some (JNum 49) /\
    List.length (satellite_data w') = 49%nat.
Proof.
  eexists _, _. split; [vm_compute; reflexivity|]. split; reflexivity.
Qed.

(* ================================================================== *)
(** * Reading the table back *)

Section RoundTrip.

Lemma round2_has_decimals (x : Q) : has_decimals 2 (round2 x).
Proof.
  exists (Math_round (x * 100)). unfold round2.
  change (10 ^ Z.of_nat 2)%Z with 100%Z. change (inject_Z 100) with 100.
  field.
Qed.

Lemma decimal_rounds (precision scale : nat) (q q' : Q) :
  Storage.decimal precision scale q = Some q' -> q' == rounded scale q.
Proof. intros H. rewrite (decimal_value _ _ _ H). reflexivity. Qed.

Lemma decimal_keeps (precision scale : nat) (q q' : Q) :
  has_decimals scale q ->
  Storage.decimal precision scale q = Some q' -> q' == q.
Proof. intros [m Hm] H. eapply decimal_exact; eassumption. Qed.

(** A generated point and the row it is stored as. *)
Lemma cell_read_back (P : Platform) (lat lng : jsnum) (n c i j : nat)
  (now : string) (r : Row) :
  stored_as now (cell P lat lng n c i j) r ->
  read_back (cell P lat lng n c i j) r.
Proof.
  intros [id H]. unfold Storage.to_row in H.
  destruct (latitude _) as [|la] eqn:Hla; [discriminate|].
  destruct (longitude _) as [|lo] eqn:Hlo; [discriminate|].
  destruct (Storage.decimal 10 8 la) as [la'|] eqn:Hla'; [|discriminate].
  destruct (Storage.decimal 11 8 lo) as [lo'|] eqn:Hlo'; [|discriminate].
  destruct (Storage.decimal 5 2 (cloud_coverage _)) as [cc|] eqn:Hcc; [|discriminate].
  destruct (Storage.decimal 5 2 (vegetation_index _)) as [vi|] eqn:Hvi; [|discriminate].
  destruct (Storage.decimal 5 2 (water_index _)) as [wi|] eqn:Hwi; [|discriminate].
  destruct (Storage.decimal 6 2 (temperature _)) as [t|] eqn:Htt; [|discriminate].
  injection H as <-.
  unfold read_back; cbn [row_latitude row_longitude row_acquisition_time
    row_cloud_coverage row_vegetation_index row_water_index row_temperature
    row_risk_indicators row_source].
  split.
  { exists la, lo. split; [exact Hla|]. split; [exact Hlo|].
    split; [eapply decimal_rounds; eassumption|].
    split; [eapply decimal_rounds; eassumption|].
    split; intros Hdec; eapply decimal_keeps; eassumption. }
  split; [reflexivity|].
  split; [eapply decimal_keeps; [|exact Hcc]; apply round2_has_decimals|].
  split; [eapply decimal_keeps; [|exact Hvi]; apply round2_has_decimals|].
  split; [eapply decimal_keeps; [|exact Hwi]; apply round2_has_decimals|].
  split; [eapply decimal_keeps; [|exact Htt]; apply round2_has_decimals|].
  split; reflexivity.
Qed.


(** The query returns rows of the table that lie in the box ... *)
Lemma in_insert_desc (r x : Row) (rows : list Row) :
  In x (Storage.insert_desc r rows) <-> x = r \/ In x rows.
Proof.
  induction rows as [|r' rows IH]; cbn [Storage.insert_desc].
  - cbn. intuition congruence.
  - destruct (_ <=? _)%string; cbn [In]; [intuition congruence|].
    rewrite IH. intuition congruence.
Qed.

Lemma in_order_desc (x : Row) (rows : list Row) :
  In x (Storage.order_desc rows) <-> In x rows.
Proof.
  induction rows as [|r rows IH]; cbn [Storage.order_desc fold_right]; [tauto|].
  fold (Storage.order_desc rows). rewrite in_insert_desc, IH. cbn [In].
  intuition congruence.
Qed.

Lemma insert_desc_length (r : Row) (rows : list Row) :
  List.length (Storage.insert_desc r rows) = S (List.length rows).
Proof.
  induction rows as [|r' rows IH]; cbn [Storage.insert_desc]; [reflexivity|].
  destruct (_ <=? _)%string; cbn [List.length]; [reflexivity|].
  rewrite IH. reflexivity.
Qed.

Lemma order_desc_length (rows : list Row) :
  List.length (Storage.order_desc rows) = List.length rows.
Proof.
  induction rows as [|r rows IH]; cbn [Storage.order_desc fold_right]; [reflexivity|].
  fold (Storage.order_desc rows). rewrite insert_desc_length, IH. reflexivity.
Qed.



(** ... and all of them, when at most 100 rows lie in the box. *)
Lemma select_box_complete (south north west east : Q) (table : list Row) (r : Row) :
  In r table ->
  Storage.in_box south north west east r = true ->
  (List.length (filter (Storage.in_box south north west east) table) <= 100)%nat ->
  In r (Storage.select_box south north west east table).
Proof.
  intros Hin Hbox Hlen. unfold Storage.select_box.
  rewrite firstn_all2 by (rewrite order_desc_length; exact Hlen).
  apply (proj2 (in_order_desc _ _)). apply (proj2 (filter_In _ _ _)).
  split; assumption.
Qed.

End RoundTrip.




(* ================================================================== *)
(** * Further properties of the generator *)




(* ================================================================== *)
(** * When an insert succeeds *)

Section Storable.

(** Rounding moves a number by at most one half. *)
Lemma round_half_away_near (y : Q) :
  y - 0.5 <= inject_Z (Storage.round_half_away y) /\
  inject_Z (Storage.round_half_away y) <= y + 0.5.
Proof.
  unfold Storage.round_half_away. destruct (Qle_bool 0 y).
  - pose proof (Qfloor_le (y + 0.5)) as Hle.
    pose proof (Qlt_floor (y + 0.5)) as Hlt.
    rewrite inject_Z_plus in Hlt. change (inject_Z 1) with 1 in Hlt.
    split; lra.
  - pose proof (Qfloor_le (- y + 0.5)) as Hle.
    pose proof (Qlt_floor (- y + 0.5)) as Hlt.
    rewrite inject_Z_plus in Hlt. change (inject_Z 1) with 1 in Hlt.
    rewrite inject_Z_opp. split; lra.
Qed.

(** A value whose scaled magnitude stays below the column's capacity
    is accepted. *)
Lemma decimal_fits (precision scale : nat) (bound : Z) (q : Q) :
  (bound < 10 ^ Z.of_nat precision)%Z ->
  inject_Z (- bound) <= q * inject_Z (10 ^ Z.of_nat scale) ->
  q * inject_Z (10 ^ Z.of_nat scale) <= inject_Z bound ->
  exists q', Storage.decimal precision scale q = Some q'.
Proof.
  intros Hbound Hlo Hhi. unfold Storage.decimal.
  destruct (@round_half_away_range (- bound) bound _ Hlo Hhi) as [Ha Hb].
  destruct (Z.ltb_spec (Z.abs (Storage.round_half_away
                                 (q * inject_Z (10 ^ Z.of_nat scale))))
              (10 ^ Z.of_nat precision)) as [_|Hge].
  - eexists. reflexivity.
  - lia.
Qed.

(** The exact capacity of a column: the scaled value rounds to fewer
    than [precision] digits exactly when its magnitude is below
    10^precision - 1/2. *)
Lemma decimal_fits_strict (precision scale : nat) (q : Q) :
  - inject_Z (10 ^ Z.of_nat precision) + 0.5 < q * inject_Z (10 ^ Z.of_nat scale) ->
  q * inject_Z (10 ^ Z.of_nat scale) < inject_Z (10 ^ Z.of_nat precision) - 0.5 ->
  exists q', Storage.decimal precision scale q = Some q'.
Proof.
  intros Hlo Hhi. unfold Storage.decimal.
  destruct (round_half_away_near (q * inject_Z (10 ^ Z.of_nat scale))) as [Ha Hb].
  set (n := Storage.round_half_away (q * inject_Z (10 ^ Z.of_nat scale))) in *.
  assert (H1 : inject_Z n < inject_Z (10 ^ Z.of_nat precision)) by lra.
  assert (H2 : inject_Z (- 10 ^ Z.of_nat precision) < inject_Z n)
    by (rewrite inject_Z_opp; lra).
  rewrite <- Zlt_Qlt in H1, H2.
  destruct (Z.ltb_spec (Z.abs n) (10 ^ Z.of_nat precision)) as [_|Hge].
  - eexists. reflexivity.
  - lia.
Qed.

Lemma decimal_overflows (precision scale : nat) (q : Q) :
  q * inject_Z (10 ^ Z.of_nat scale) <= - inject_Z (10 ^ Z.of_nat precision) + 0.5 \/
  inject_Z (10 ^ Z.of_nat precision) - 0.5 <= q * inject_Z (10 ^ Z.of_nat scale) ->
  Storage.decimal precision scale q = None.
Proof.
  intros Hout. unfold Storage.decimal.
  set (y := q * inject_Z (10 ^ Z.of_nat scale)) in *.
  assert (Hpos : (0 < 10 ^ Z.of_nat precision)%Z) by (apply Z.pow_pos_nonneg; lia).
  assert (Hpos' : 1 <= inject_Z (10 ^ Z.of_nat precision))
    by (change 1 with (inject_Z 1); rewrite <- Zle_Qle; lia).
  assert (Hn : (10 ^ Z.of_nat precision <= Z.abs (Storage.round_half_away y))%Z).
  { unfold Storage.round_half_away. destruct Hout as [Hlow|Hhigh].
    - destruct (Qle_bool 0 y) eqn:Hsign.
      + apply Qle_bool_iff in Hsign. lra.
      + assert (H : (10 ^ Z.of_nat precision <= Qfloor (- y + 0.5))%Z).
        { rewrite <- (Qfloor_Z (10 ^ Z.of_nat precision)).
          apply Qfloor_resp_le. lra. }
        lia.
    - destruct (Qle_bool 0 y) eqn:Hsign.
      + assert (H : (10 ^ Z.of_nat precision <= Qfloor (y + 0.5))%Z).
        { rewrite <- (Qfloor_Z (10 ^ Z.of_nat precision)).
          apply Qfloor_resp_le. lra. }
        lia.
      + assert (Hneg : ~ 0 <= y) by (rewrite <- Qle_bool_iff, Hsign; discriminate).
        lra. }
  destruct (Z.ltb_spec (Z.abs (Storage.round_half_away y))
              (10 ^ Z.of_nat precision)) as [Hlt|_]; [lia|reflexivity].
Qed.

Lemma valid_centre_storable (lat lng : Q) :
  valid_centre lat lng -> fits_columns lat lng.
Proof. unfold valid_centre, fits_columns. intros [[? ?] [? ?]]. repeat split; lra. Qed.

Lemma storable_centre_fits (lat lng : Q) :
  storable_centre lat lng -> fits_columns lat lng.
Proof. unfold storable_centre, fits_columns. intros [[? ?] [? ?]]. repeat split; lra. Qed.

Lemma overflowing_centre_does_not_fit (lat lng : Q) :
  overflowing_centre lat lng -> ~ fits_columns lat lng.
Proof.
  unfold overflowing_centre, fits_columns.
  intros [?|[?|[?|?]]] [[? ?] [? ?]]; lra.
Qed.

Lemma to_rows_succeeds (now : string) :
  forall (data : list SatelliteDataPoint),
    (forall d id, In d data -> exists r, Storage.to_row id now d = inr r) ->
    forall id, exists rows, Storage.to_rows id now data = inr rows.
Proof.
  induction data as [|d data IH]; intros Hall id; cbn [Storage.to_rows].
  - eexists. reflexivity.
  - destruct (Hall d id (or_introl eq_refl)) as [r Hr]. rewrite Hr.
    destruct (IH (fun d' id' Hin => Hall d' id' (or_intror Hin)) (S id)) as [rows Hrows].
    rewrite Hrows. eexists. reflexivity.
Qed.

(** The generated point of a storable centre fits every column. *)
Lemma cell_is_storable (P : Platform) (lat lng : Q) (n c i j id : nat) (now : string) :
  unit_random P -> fits_columns lat lng ->
  (i < Ingest.gridSize)%nat -> (j < Ingest.gridSize)%nat ->
  exists r, Storage.to_row id now (cell P (Num lat) (Num lng) n c i j) = inr r.
Proof.
  intros HP [[Hlat1 Hlat2] [Hlng1 Hlng2]] Hi Hj.
  destruct (cell_range (Num lat) (Num lng) n c i j HP)
    as ((Hc1 & Hc2) & (Hv1 & Hv2) & (Hw1 & Hw2) & (Ht1 & Ht2) & _).
  assert (Hstep : Ingest.step == 0.015) by reflexivity.
  assert (Hradius : Ingest.radius == 0.045) by reflexivity.
  assert (Hi' : 0 <= Ingest.of_nat i /\ Ingest.of_nat i <= 6).
  { unfold Ingest.of_nat, Ingest.gridSize in *. split.
    - change 0 with (inject_Z 0). rewrite <- Zle_Qle. lia.
    - change 6 with (inject_Z 6). rewrite <- Zle_Qle. lia. }
  assert (Hj' : 0 <= Ingest.of_nat j /\ Ingest.of_nat j <= 6).
  { unfold Ingest.of_nat, Ingest.gridSize in *. split.
    - change 0 with (inject_Z 0). rewrite <- Zle_Qle. lia.
    - change 6 with (inject_Z 6). rewrite <- Zle_Qle. lia. }
  unfold Storage.to_row.
  change (latitude (cell P (Num lat) (Num lng) n c i j))
    with (Num (lat - Ingest.radius + Ingest.of_nat i * Ingest.step)).
  change (longitude (cell P (Num lat) (Num lng) n c i j))
    with (Num (lng - Ingest.radius + Ingest.of_nat j * Ingest.step)).
  destruct (@decimal_fits_strict 10 8
              (lat - Ingest.radius + Ingest.of_nat i * Ingest.step)) as [la Hla];
    [change (10 ^ Z.of_nat 8)%Z with 100000000%Z;
     change (10 ^ Z.of_nat 10)%Z with 10000000000%Z; unfold inject_Z;
     rewrite Hstep, Hradius; lra
    |change (10 ^ Z.of_nat 8)%Z with 100000000%Z;
     change (10 ^ Z.of_nat 10)%Z with 10000000000%Z; unfold inject_Z;
     rewrite Hstep, Hradius; lra|].
  destruct (@decimal_fits_strict 11 8
              (lng - Ingest.radius + Ingest.of_nat j * Ingest.step)) as [lo Hlo];
    [change (10 ^ Z.of_nat 8)%Z with 100000000%Z;
     change (10 ^ Z.of_nat 11)%Z with 100000000000%Z; unfold inject_Z;
     rewrite Hstep, Hradius; lra
    |change (10 ^ Z.of_nat 8)%Z with 100000000%Z;
     change (10 ^ Z.of_nat 11)%Z with 100000000000%Z; unfold inject_Z;
     rewrite Hstep, Hradius; lra|].
  destruct (@decimal_fits 5 2 99999 (cloud_coverage (cell P (Num lat) (Num lng) n c i j)))
    as [cc Hcc];
    [reflexivity
    |change (10 ^ Z.of_nat 2)%Z with 100%Z; cbn [Z.opp]; unfold inject_Z; lra
    |change (10 ^ Z.of_nat 2)%Z with 100%Z; cbn [Z.opp]; unfold inject_Z; lra|].
  destruct (@decimal_fits 5 2 99999 (vegetation_index (cell P (Num lat) (Num lng) n c i j)))
    as [vi Hvi];
    [reflexivity
    |change (10 ^ Z.of_nat 2)%Z with 100%Z; cbn [Z.opp]; unfold inject_Z; lra
    |change (10 ^ Z.of_nat 2)%Z with 100%Z; cbn [Z.opp]; unfold inject_Z; lra|].
  destruct (@decimal_fits 5 2 99999 (water_index (cell P (Num lat) (Num lng) n c i j)))
    as [wi Hwi];
    [reflexivity
    |change (10 ^ Z.of_nat 2)%Z with 100%Z; cbn [Z.opp]; unfold inject_Z; lra
    |change (10 ^ Z.of_nat 2)%Z with 100%Z; cbn [Z.opp]; unfold inject_Z; lra|].
  destruct (@decimal_fits 6 2 999999 (temperature (cell P (Num lat) (Num lng) n c i j)))
    as [t Ht];
    [reflexivity
    |change (10 ^ Z.of_nat 2)%Z with 100%Z; cbn [Z.opp]; unfold inject_Z; lra
    |change (10 ^ Z.of_nat 2)%Z with 100%Z; cbn [Z.opp]; unfold inject_Z; lra|].
  rewrite Hla, Hlo, Hcc, Hvi, Hwi, Ht. eexists. reflexivity.
Qed.

End Storable.

(* ================================================================== *)
(** * One location, by what the database decides *)

Section LocationOutcome.

Variable P : Platform.
Variable token : string.

Lemma process_insert (location : json) (total : nat) (w : World) :
  location <> JNull ->
  Ingest.process P token location total w
  = match Storage.insert P
            (lattice P (ToNumber P (get location "lat")) (ToNumber P (get location "lng"))
               (random_calls w) (clock_reads w))
            (at_insert w) with
    | (w2, Normal None) =>
        (logged [(LOG, "Inserted satellite data points for"%string)] w2,
         Normal (total + 49)%nat)
    | (w2, Normal (Some _)) =>
        (logged [(ERROR, "Error inserting satellite data for"%string)] w2, Normal total)
    | (w2, Throw e) => (w2, Throw e)
    end.
Proof.
  intros Hloc. unfold Ingest.process.
  rewrite !(member_defined _ Hloc). cbn [bind ret].
  erewrite bind_normal by apply fetchSatelliteData_run.
  fold (at_insert w). unfold bind at 1.
  destruct (Storage.insert P _ (at_insert w)) as [w2 [[e|]|e]]; reflexivity.
Qed.

Lemma insert_stores (data : list SatelliteDataPoint) (rows : list Row) (w : World) :
  db_reachable P (List.length (insert_log w)) = true ->
  Storage.to_rows (List.length (satellite_data w))
    (db_now P (List.length (insert_log w))) data = inr rows ->
  Storage.insert P data w = (inserted true rows w, Normal None).
Proof.
  intros Hdb Hrows. unfold Storage.insert. rewrite Hdb, Hrows. reflexivity.
Qed.

Lemma insert_refused (data : list SatelliteDataPoint) (w : World) :
  db_reachable P (List.length (insert_log w)) = false \/
  (exists e, Storage.to_rows (List.length (satellite_data w))
               (db_now P (List.length (insert_log w))) data = inl e) ->
  exists e, Storage.insert P data w = (inserted false [] w, Normal (Some e)).
Proof.
  intros H. unfold Storage.insert, inserted. rewrite app_nil_r.
  destruct (db_reachable P _).
  - destruct H as [H|[e He]]; [discriminate|]. rewrite He. eexists. reflexivity.
  - eexists. reflexivity.
Qed.

Lemma to_rows_fails (now : string) :
  forall (data : list SatelliteDataPoint) (id : nat),
    (exists d, In d data /\ forall id', exists e, Storage.to_row id' now d = inl e) ->
    exists e, Storage.to_rows id now data = inl e.
Proof.
  induction data as [|d data IH]; intros id (d0 & Hin & Hfail); [destruct Hin|].
  cbn [Storage.to_rows].
  destruct (Storage.to_row id now d) as [e|r] eqn:Hr; [eexists; reflexivity|].
  destruct Hin as [->|Hin].
  - destruct (Hfail id) as [e He]. congruence.
  - destruct (IH (S id) (ex_intro _ d0 (conj Hin Hfail))) as [e He].
    rewrite He. eexists. reflexivity.
Qed.

(** The lattice of a storable centre is stored whole. *)
Lemma lattice_is_storable (lat lng : Q) (n c id : nat) (now : string) :
  unit_random P -> fits_columns lat lng ->
  exists rows, Storage.to_rows id now (lattice P (Num lat) (Num lng) n c) = inr rows.
Proof.
  intros HP Hcentre. apply to_rows_succeeds.
  intros d id' Hin. apply in_lattice in Hin.
  destruct Hin as (i & j & Hi & Hj & ->).
  apply cell_is_storable; assumption.
Qed.

(** A lattice one of whose centre coordinates is not a number is refused. *)
Lemma lattice_without_coordinates (lat lng : jsnum) (n c id : nat) (now : string) :
  lat = NaN \/ lng = NaN ->
  exists e, Storage.to_rows id now (lattice P lat lng n c) = inl e.
Proof.
  intros Hnan. apply to_rows_fails.
  exists (cell P lat lng (5 * (Ingest.gridSize * 0 + 0) + n) (Ingest.gridSize * 0 + 0 + c) 0 0).
  split.
  - eapply nth_error_In. apply nth_error_lattice; unfold Ingest.gridSize; lia.
  - intros id'. exists NotNullViolation.
    unfold Storage.to_row, cell, Ingest.dataPoint. cbn [latitude longitude].
    destruct Hnan as [-> | ->]; [reflexivity|].
    destruct lat; reflexivity.
Qed.

Lemma to_row_overflow (id : nat) (now : string) (d : SatelliteDataPoint) (la lo : Q) :
  latitude d = Num la -> longitude d = Num lo ->
  Storage.decimal 10 8 la = None \/ Storage.decimal 11 8 lo = None ->
  Storage.to_row id now d = inl NumericOverflow.
Proof.
  intros Hla Hlo Hnone. unfold Storage.to_row. rewrite Hla, Hlo.
  destruct Hnone as [H|H]; rewrite H.
  - reflexivity.
  - destruct (Storage.decimal 10 8 la); reflexivity.
Qed.

(** The lattice of a centre that is not storable has a point that
    overflows a coordinate column, so the whole insert is refused. *)
Lemma lattice_overflows (lat lng : Q) (n c id : nat) (now : string) :
  ~ fits_columns lat lng ->
  exists e, Storage.to_rows id now (lattice P (Num lat) (Num lng) n c) = inl e.
Proof.
  intros Hout.
  assert (Hstep : Ingest.step == 0.015) by reflexivity.
  assert (Hradius : Ingest.radius == 0.045) by reflexivity.
  assert (Hcases : lat <= -99.954999995 \/ 99.954999995 <= lat \/
                   lng <= -999.954999995 \/ 999.954999995 <= lng).
  { unfold fits_columns in Hout.
    destruct (Qlt_le_dec (-99.954999995) lat); [|left; assumption].
    destruct (Qlt_le_dec lat 99.954999995); [|right; left; assumption].
    destruct (Qlt_le_dec (-999.954999995) lng); [|right; right; left; assumption].
    destruct (Qlt_le_dec lng 999.954999995); [|right; right; right; assumption].
    exfalso. apply Hout. repeat split; assumption. }
  assert (Hcell : forall i j, (i < Ingest.gridSize)%nat -> (j < Ingest.gridSize)%nat ->
            Storage.decimal 10 8 (lat - Ingest.radius + Ingest.of_nat i * Ingest.step) = None \/
            Storage.decimal 11 8 (lng - Ingest.radius + Ingest.of_nat j * Ingest.step) = None ->
            exists e, Storage.to_rows id now (lattice P (Num lat) (Num lng) n c) = inl e).
  { intros i j Hi Hj Hnone. apply to_rows_fails.
    exists (cell P (Num lat) (Num lng) (5 * (Ingest.gridSize * i + j) + n)
              (Ingest.gridSize * i + j + c) i j).
    split; [eapply nth_error_In; apply nth_error_lattice; assumption|].
    intros id'. exists NumericOverflow.
    apply to_row_overflow with (la := lat - Ingest.radius + Ingest.of_nat i * Ingest.step)
                               (lo := lng - Ingest.radius + Ingest.of_nat j * Ingest.step);
      [reflexivity|reflexivity|exact Hnone]. }
  destruct Hcases as [H|[H|[H|H]]].
  - apply (Hcell 0%nat 0%nat); [unfold Ingest.gridSize; lia..|]. left.
    apply decimal_overflows. left.
    change (10 ^ Z.of_nat 8)%Z with 100000000%Z.
    change (10 ^ Z.of_nat 10)%Z with 10000000000%Z.
    change (Ingest.of_nat 0) with 0. unfold inject_Z. rewrite Hstep, Hradius. lra.
  - apply (Hcell 6%nat 0%nat); [unfold Ingest.gridSize; lia..|]. left.
    apply decimal_overflows. right.
    change (10 ^ Z.of_nat 8)%Z with 100000000%Z.
    change (10 ^ Z.of_nat 10)%Z with 10000000000%Z.
    change (Ingest.of_nat 6) with 6. unfold inject_Z. rewrite Hstep, Hradius. lra.
  - apply (Hcell 0%nat 0%nat); [unfold Ingest.gridSize; lia..|]. right.
    apply decimal_overflows. left.
    change (10 ^ Z.of_nat 8)%Z with 100000000%Z.
    change (10 ^ Z.of_nat 11)%Z with 100000000000%Z.
    change (Ingest.of_nat 0) with 0. unfold inject_Z. rewrite Hstep, Hradius. lra.
  - apply (Hcell 0%nat 6%nat); [unfold Ingest.gridSize; lia..|]. right.
    apply decimal_overflows. right.
    change (10 ^ Z.of_nat 8)%Z with 100000000%Z.
    change (10 ^ Z.of_nat 11)%Z with 100000000000%Z.
    change (Ingest.of_nat 6) with 6. unfold inject_Z. rewrite Hstep, Hradius. lra.
Qed.

(** A storable location on a reachable database: its 49 rows are stored. *)
Lemma process_valid (location : json) (lat lng : Q) (total : nat) (w : World) :
  unit_random P ->
  db_reachable P (List.length (insert_log w)) = true ->
  get location "lat" = Some (JNum lat) ->
  get location "lng" = Some (JNum lng) ->
  fits_columns lat lng ->
  exists rows,
    Ingest.process P token location total w
    = (logged [(LOG, "Inserted satellite data points for"%string)]
         (inserted true rows (at_insert w)),
       Normal (total + 49)%nat) /\
    Forall2 (stored_as (db_now P (List.length (insert_log w))))
      (lattice P (Num lat) (Num lng) (random_calls w) (clock_reads w)) rows.
Proof.
  intros HP Hdb Hlat Hlng Hcentre.
  assert (Hloc : location <> JNull) by (intros ->; discriminate Hlat).
  rewrite (process_insert total w Hloc), Hlat, Hlng. cbn [ToNumber].
  destruct (@lattice_is_storable lat lng (random_calls w) (clock_reads w)
              (List.length (satellite_data (at_insert w)))
              (db_now P (List.length (insert_log (at_insert w)))) HP Hcentre)
    as [rows Hrows].
  exists rows. rewrite (insert_stores _ (at_insert w) Hdb Hrows).
  split; [reflexivity|]. eapply to_rows_stored. exact Hrows.
Qed.

(** A location that is not stored: the database cannot be reached, a
    coordinate is not a number, or the coordinates overflow. *)
Lemma process_refused (location : json) (total : nat) (w : World) :
  location <> JNull ->
  db_reachable P (List.length (insert_log w)) = false \/
  ToNumber P (get location "lat") = NaN \/ ToNumber P (get location "lng") = NaN \/
  (exists lat lng,
      get location "lat" = Some (JNum lat) /\ get location "lng" = Some (JNum lng) /\
      ~ fits_columns lat lng) ->
  Ingest.process P token location total w
  = (logged [(ERROR, "Error inserting satellite data for"%string)]
       (inserted false [] (at_insert w)),
     Normal total).
Proof.
  intros Hloc Hwhy. rewrite (process_insert total w Hloc).
  destruct (@insert_refused
              (lattice P (ToNumber P (get location "lat")) (ToNumber P (get location "lng"))
                 (random_calls w) (clock_reads w)) (at_insert w)) as [e He].
  { destruct Hwhy as [Hdb|[Hnan|[Hnan|(lat & lng & Hlat & Hlng & Hout)]]];
      [left; exact Hdb|right..].
    - apply lattice_without_coordinates. left. exact Hnan.
    - apply lattice_without_coordinates. right. exact Hnan.
    - rewrite Hlat, Hlng. cbn [ToNumber]. apply lattice_overflows. exact Hout. }
  rewrite He. reflexivity.
Qed.

End LocationOutcome.

(* ================================================================== *)
(** * The loop, when every insert has the same outcome *)

Section UniformLoop.

Variable P : Platform.
Variable token : string.

Lemma errors_of_logged_log (line : string) (w : World) :
  errors_of (console (logged [(LOG, line)] w)) = errors_of (console w).
Proof. cbn [logged console]. rewrite errors_of_app. apply app_nil_r. Qed.

Lemma locations_loop_stored :
  unit_random P -> (forall n, db_reachable P n = true) ->
  forall (items : list json) (total : nat) (w : World),
    Forall valid_location items ->
    exists (w' : World) (rows : list Row),
      for_of items (Ingest.process P token) total w
      = (w', Normal (total + 49 * List.length items)%nat) /\
      insert_log w' = insert_log w ++ repeat true (List.length items) /\
      satellite_data w' = satellite_data w ++ rows /\
      List.length rows = (49 * List.length items)%nat /\
      Forall row_in_range rows /\
      errors_of (console w') = errors_of (console w) /\
      fetch_log w' = fetch_log w /\
      clock_reads w' = (49 * List.length items + clock_reads w)%nat.
Proof.
  intros HP Hdb.
  induction items as [|location items IH]; intros total w Hitems.
  - exists w, []. cbn. rewrite !app_nil_r, Nat.add_0_r.
    repeat split; try reflexivity. constructor.
  - inversion Hitems as [|? ? (lat & lng & Hlat & Hlng & Hcentre) Hrest]; subst.
    destruct (@process_valid P token location lat lng total w HP (Hdb _) Hlat Hlng
                (valid_centre_storable Hcentre))
      as (rows1 & Hrun & Hstored).
    destruct (IH (total + 49)%nat
                (logged [(LOG, "Inserted satellite data points for"%string)]
                   (inserted true rows1 (at_insert w))) Hrest)
      as (w2 & rows2 & Hrun2 & Hlog2 & Htable2 & Hlen2 & Hrange2 & Herr2 & Hfetch2 & Hclock2).
    exists w2, (rows1 ++ rows2). cbn [for_of].
    erewrite bind_normal by exact Hrun. rewrite Hrun2.
    cbn [logged inserted at_insert drew insert_log satellite_data console fetch_log
         clock_reads] in *.
    split; [cbn [List.length]; do 2 f_equal; lia|].
    split; [rewrite Hlog2, <- app_assoc; reflexivity|].
    split; [rewrite Htable2, <- app_assoc; reflexivity|].
    split.
    { rewrite length_app, Hlen2. apply Forall2_length_eq in Hstored.
      rewrite <- Hstored, lattice_length. cbn [List.length]. lia. }
    split.
    { apply Forall_app. split; [|exact Hrange2].
      eapply stored_rows_in_range; [|exact Hstored]. apply lattice_range. exact HP. }
    split.
    { rewrite Herr2, !errors_of_app. cbn. rewrite !app_nil_r. reflexivity. }
    split; [exact Hfetch2|].
    rewrite Hclock2. cbn [List.length]. lia.
Qed.

Lemma locations_loop_refused :
  forall (items : list json) (total : nat) (w : World),
    Forall (refused P) items ->
    exists w' : World,
      for_of items (Ingest.process P token) total w = (w', Normal total) /\
      insert_log w' = insert_log w ++ repeat false (List.length items) /\
      satellite_data w' = satellite_data w /\
      List.length (errors_of (console w'))
      = (List.length (errors_of (console w)) + List.length items)%nat /\
      fetch_log w' = fetch_log w.
Proof.
  induction items as [|location items IH]; intros total w Hitems.
  - exists w. cbn. rewrite !app_nil_r, Nat.add_0_r. repeat split; reflexivity.
  - inversion Hitems as [|? ? [Hloc Hwhy] Hrest]; subst.
    assert (Hwhy' : db_reachable P (List.length (insert_log w)) = false \/
                    ToNumber P (get location "lat") = NaN \/
                    ToNumber P (get location "lng") = NaN \/
                    (exists lat lng,
                        get location "lat" = Some (JNum lat) /\
                        get location "lng" = Some (JNum lng) /\
                        ~ fits_columns lat lng))
      by (destruct Hwhy as [Hdown|[Hnan|[Hnan|(lat & lng & Hlat & Hlng & Hout)]]];
          [left; apply Hdown|right; left; exact Hnan|right; right; left; exact Hnan|];
          right; right; right; exists lat, lng;
          repeat split; try assumption;
          apply overflowing_centre_does_not_fit; exact Hout).
    pose proof (@process_refused P token location total w Hloc Hwhy') as Hrun.
    destruct (IH total
                (logged [(ERROR, "Error inserting satellite data for"%string)]
                   (inserted false [] (at_insert w))) Hrest)
      as (w2 & Hrun2 & Hlog2 & Htable2 & Herr2 & Hfetch2).
    exists w2. cbn [for_of].
    erewrite bind_normal by exact Hrun. rewrite Hrun2.
    cbn [logged inserted at_insert drew insert_log satellite_data console fetch_log
         clock_reads] in *.
    split; [reflexivity|].
    split; [rewrite Hlog2, <- app_assoc; reflexivity|].
    split; [rewrite Htable2; apply app_nil_r|].
    split; [|exact Hfetch2].
    rewrite Herr2, !errors_of_app, !length_app. cbn. lia.
Qed.

End UniformLoop.

(* ================================================================== *)
(** * The handler around the loop *)

Lemma ingest_serve_loop
  (P : Platform) (req : Request) (w : World) (request j : json) (items : list json) :
  method req <> "OPTIONS"%string ->
  json_body req = Normal request ->
  request <> JNull ->
  createClient P (Deno_env_get P "SUPABASE_URL")
    (Deno_env_get P "SUPABASE_SERVICE_ROLE_KEY") = Normal tt ->
  Ingest.locationsToProcess (get request "latitude") (get request "longitude")
    (get request "locations") = Some j ->
  iterate j = Some items ->
  Ingest.serve P req w
  = match for_of items (Ingest.process P "demo-mode") 0%nat (at_loop w) with
    | (w1, Normal total) =>
        (logged [(LOG, "Satellite ingestion summary:"%string)] (drew 0 1 w1),
         Normal (summary (get request "trigger") (get request "source") (length_of j)
                   total (Date_toISOString P (clock_reads w1))))
    | (w1, Throw e) => Ingest.on_error P e w1
    end.
Proof.
  intros Hmethod Hbody Hrequest Hclient Hselect Hiter.
  unfold Ingest.serve. apply String.eqb_neq in Hmethod. rewrite Hmethod.
  unfold try_catch, Ingest.ingest.
  unfold await. rewrite Hbody, Hclient.
  cbn [bind]. rewrite !(member_defined _ Hrequest).
  cbn [bind ret console_log Ingest.getCopernicusToken
       random_calls clock_reads insert_log satellite_data fetch_log console].
  rewrite Hselect. unfold Ingest.iterator. rewrite Hiter.
  cbn [bind ret].
  match goal with
  | |- context [bind (for_of _ _ _) _ ?w0] =>
      replace w0 with (at_loop w)
        by (unfold at_loop, logged; rewrite <- app_assoc; reflexivity)
  end.
  unfold bind at 1.
  destruct (for_of items _ 0%nat (at_loop w)) as [w1 [total|e]]; [|reflexivity].
  destruct j; try discriminate Hiter; reflexivity.
Qed.

(* ================================================================== *)
(** * What a request leaves in the table *)

Lemma demo_client :
  createClient Demo.platform (Deno_env_get Demo.platform "SUPABASE_URL")
    (Deno_env_get Demo.platform "SUPABASE_SERVICE_ROLE_KEY") = Normal tt.
Proof. reflexivity. Qed.

Lemma location_is_valid (lat lng : Q) :
  valid_centre lat lng -> valid_location (Ingest.location lat lng).
Proof. intros H. exists lat, lng. repeat split; try reflexivity; apply H. Qed.

(** X2.  A request whose [locations] is an array of K entries with
    numeric [lat] and [lng] on the globe (-90..90, -180..180), on a
    database that accepts inserts and with [Math.random] in [0, 1): every
    insert succeeds.  The response is the 200 summary with
    locationsProcessed = K and dataPointsInserted = 49 * K, the table
    gains exactly 49 * K rows, all within the value bounds, and no ERROR
    line is written: no generated value overflows its DECIMAL column. *)
Theorem valid_locations_are_all_stored
  (P : Platform) (req : Request) (w : World) (request : json) (locations : list json) :
  method req <> "OPTIONS"%string ->
  json_body req = Normal request ->
  get request "locations" = Some (JArr locations) ->
  Forall valid_location locations ->
  createClient P (Deno_env_get P "SUPABASE_URL")
    (Deno_env_get P "SUPABASE_SERVICE_ROLE_KEY") = Normal tt ->
  unit_random P ->
  (forall n, db_reachable P n = true) ->
  exists (w' : World) (rows : list Row) (timestamp : string),
    Ingest.serve P req w
    = (w', Normal (summary (get request "trigger") (get request "source")
                     (Some (number (List.length locations)))
                     (49 * List.length locations) timestamp)) /\
    satellite_data w' = satellite_data w ++ rows /\
    List.length rows = (49 * List.length locations)%nat /\
    Forall row_in_range rows /\
    errors_of (console w') = errors_of (console w).
Proof.
  intros Hmethod Hbody Hlocations Hvalid Hclient HP Hdb.
  assert (Hrequest : request <> JNull) by (intros ->; discriminate Hlocations).
  rewrite (@ingest_serve_loop P req w request (JArr locations) locations
             Hmethod Hbody Hrequest Hclient)
    by (try reflexivity; rewrite locationsToProcess_rule, Hlocations; reflexivity).
  destruct (@locations_loop_stored P "demo-mode" HP Hdb locations 0%nat (at_loop w) Hvalid)
    as (w1 & rows & Hrun & _ & Htable & Hlen & Hrange & Herr & _).
  rewrite Hrun. exists (logged [(LOG, "Satellite ingestion summary:"%string)] (drew 0 1 w1)),
    rows, (Date_toISOString P (clock_reads w1)).
  split; [reflexivity|].
  split; [exact Htable|]. split; [exact Hlen|]. split; [exact Hrange|].
  rewrite errors_of_logged_log. cbn [drew console]. rewrite Herr.
  unfold at_loop. cbn [logged console]. rewrite errors_of_app. apply app_nil_r.
Qed.

Lemma valid_locations_are_all_stored_witness :
  "POST"%string <> "OPTIONS"%string /\
  unit_random Demo.platform /\
  exists (w' : World) (rows : list Row) (timestamp : string),
    Ingest.serve Demo.platform (Demo.post two_cities) initial_world
    = (w', Normal (summary None None (Some (number 2)) 98 timestamp)) /\
    satellite_data w' = rows /\
    List.length rows = 98%nat.
Proof.
  split; [discriminate|]. split; [exact demo_unit_random|].
  destruct (@valid_locations_are_all_stored Demo.platform (Demo.post two_cities)
              initial_world two_cities
              [Ingest.location 40.7128 (-74.006); Ingest.location (-33.8688) 151.2093]
              ltac:(discriminate) eq_refl eq_refl
              ltac:(repeat constructor; apply location_is_valid;
                    unfold valid_centre; lra)
              demo_client demo_unit_random (fun _ => eq_refl))
    as (w' & rows & timestamp & Hrun & Htable & Hlen & _).
  exists w', rows, timestamp.
  split; [exact Hrun|]. split; [exact Htable|exact Hlen].
Defined.

Lemma default_cities_valid (items : list json) :
  iterate Ingest.defaultLocations = Some items -> Forall valid_location items.
Proof.
  intros [= <-]. repeat constructor; apply location_is_valid; unfold valid_centre; lra.
Qed.

(** X3.  A request (its body any JSON but [null]) in which [locations]
    is missing or falsy and [latitude], [longitude] are not both truthy
    names no location: the five default cities are processed.  On a
    database that accepts inserts and with [Math.random] in [0, 1) the
    response reports locationsProcessed 5 and dataPointsInserted 245, and
    the table gains 245 rows. *)
Theorem request_without_location_ingests_defaults
  (P : Platform) (req : Request) (w : World) (request : json) :
  method req <> "OPTIONS"%string ->
  json_body req = Normal request ->
  request <> JNull ->
  truthy (get request "locations") = false ->
  truthy (get request "latitude") && truthy (get request "longitude") = false ->
  createClient P (Deno_env_get P "SUPABASE_URL")
    (Deno_env_get P "SUPABASE_SERVICE_ROLE_KEY") = Normal tt ->
  unit_random P ->
  (forall n, db_reachable P n = true) ->
  exists (w' : World) (rows : list Row) (timestamp : string),
    Ingest.serve P req w
    = (w', Normal (summary (get request "trigger") (get request "source")
                     (Some (number 5)) 245 timestamp)) /\
    satellite_data w' = satellite_data w ++ rows /\
    List.length rows = 245%nat /\
    Forall row_in_range rows.
Proof.
  intros Hmethod Hbody Hrequest Hlocations Hsingle Hclient HP Hdb.
  assert (Hselect :
            Ingest.locationsToProcess (get request "latitude") (get request "longitude")
              (get request "locations") = Some Ingest.defaultLocations)
    by (rewrite locationsToProcess_rule, Hlocations, Hsingle; reflexivity).
  rewrite (@ingest_serve_loop P req w request Ingest.defaultLocations _
             Hmethod Hbody Hrequest Hclient Hselect eq_refl).
  destruct (@locations_loop_stored P "demo-mode" HP Hdb _ 0%nat (at_loop w)
              (default_cities_valid eq_refl))
    as (w1 & rows & Hrun & _ & Htable & Hlen & Hrange & _).
  rewrite Hrun. exists (logged [(LOG, "Satellite ingestion summary:"%string)] (drew 0 1 w1)),
    rows, (Date_toISOString P (clock_reads w1)).
  split; [reflexivity|].
  split; [exact Htable|]. split; [exact Hlen|exact Hrange].
Qed.

Lemma request_without_location_ingests_defaults_witness :
  "POST"%string <> "OPTIONS"%string /\
  JObj [] <> JNull /\
  unit_random Demo.platform /\
  exists (w' : World) (rows : list Row) (timestamp : string),
    Ingest.serve Demo.platform (Demo.post (JObj [])) initial_world
    = (w', Normal (summary None None (Some (number 5)) 245 timestamp)) /\
    satellite_data w' = rows /\
    List.length rows = 245%nat.
Proof.
  split; [discriminate|]. split; [discriminate|]. split; [exact demo_unit_random|].
  destruct (@request_without_location_ingests_defaults Demo.platform (Demo.post (JObj []))
              initial_world (JObj [])
              ltac:(discriminate) eq_refl ltac:(discriminate) eq_refl eq_refl
              demo_client demo_unit_random (fun _ => eq_refl))
    as (w' & rows & timestamp & Hrun & Htable & Hlen & _).
  exists w', rows, timestamp.
  split; [exact Hrun|]. split; [exact Htable|exact Hlen].
Defined.

(** X4.  A request whose [locations] is an array of K entries (none
    [null]) each of which the database refuses -- because the database
    cannot be reached, because the entry has no numeric [lat] or [lng],
    so that the rows violate NOT NULL, or because its coordinates
    overflow their columns -- is still answered with
    the 200 summary, success true: locationsProcessed = K,
    dataPointsInserted = 0.  The K inserts are attempted and fail, the
    table is unchanged and K ERROR lines are written. *)
Theorem refused_locations_are_reported_as_success
  (P : Platform) (req : Request) (w : World) (request : json) (locations : list json) :
  method req <> "OPTIONS"%string ->
  json_body req = Normal request ->
  get request "locations" = Some (JArr locations) ->
  Forall (refused P) locations ->
  createClient P (Deno_env_get P "SUPABASE_URL")
    (Deno_env_get P "SUPABASE_SERVICE_ROLE_KEY") = Normal tt ->
  exists (w' : World) (timestamp : string),
    Ingest.serve P req w
    = (w', Normal (summary (get request "trigger") (get request "source")
                     (Some (number (List.length locations))) 0 timestamp)) /\
    satellite_data w' = satellite_data w /\
    insert_log w' = insert_log w ++ repeat false (List.length locations) /\
    List.length (errors_of (console w'))
    = (List.length (errors_of (console w)) + List.length locations)%nat.
Proof.
  intros Hmethod Hbody Hlocations Hrefused Hclient.
  assert (Hrequest : request <> JNull) by (intros ->; discriminate Hlocations).
  rewrite (@ingest_serve_loop P req w request (JArr locations) locations
             Hmethod Hbody Hrequest Hclient)
    by (try reflexivity; rewrite locationsToProcess_rule, Hlocations; reflexivity).
  destruct (@locations_loop_refused P "demo-mode" locations 0%nat (at_loop w) Hrefused)
    as (w1 & Hrun & Hlog & Htable & Herr & _).
  rewrite Hrun. exists (logged [(LOG, "Satellite ingestion summary:"%string)] (drew 0 1 w1)),
    (Date_toISOString P (clock_reads w1)).
  split; [reflexivity|].
  split; [exact Htable|]. split; [exact Hlog|].
  rewrite errors_of_logged_log. cbn [drew console]. rewrite Herr.
  unfold at_loop. cbn [logged console]. rewrite errors_of_app, length_app. cbn. lia.
Qed.

Lemma refused_locations_are_reported_as_success_witness :
  "POST"%string <> "OPTIONS"%string /\
  exists (w' : World) (timestamp : string),
    Ingest.serve Demo.platform (Demo.post misnamed_coordinates) initial_world
    = (w', Normal (summary None None (Some (number 2)) 0 timestamp)) /\
    satellite_data w' = [] /\
    insert_log w' = [false; false].
Proof.
  split; [discriminate|].
  destruct (@refused_locations_are_reported_as_success Demo.platform
              (Demo.post misnamed_coordinates) initial_world misnamed_coordinates
              [JObj [("latitude", JNum 40.7128); ("longitude", JNum (-74.006))];
               JObj [("latitude", JNum 51.5074); ("longitude", JNum (-0.1278))]]%string
              ltac:(discriminate) eq_refl eq_refl
              ltac:(repeat constructor; try discriminate; right; left; reflexivity)
              demo_client)
    as (w' & timestamp & Hrun & Htable & Hlog & _).
  exists w', timestamp.
  split; [exact Hrun|]. split; [exact Htable|exact Hlog].
Defined.

(* ================================================================== *)
(** * Requests that end in a 500 *)

Lemma json_null_or_not (j : json) : j = JNull \/ j <> JNull.
Proof. destruct j; [left; reflexivity|right; discriminate..]. Qed.

Lemma ingest_throws_early (P : Platform) (req : Request) (w : World) :
  fails_early P req ->
  exists w1 e, Ingest.ingest P req w = (w1, Throw e) /\ untouched w w1.
Proof.
  intros Hfail. unfold Ingest.ingest, await.
  destruct (json_body req) as [request|e0] eqn:Hbody.
  2:{ exists w, e0. split; [reflexivity|]. repeat split. }
  destruct (json_null_or_not request) as [->|Hrequest].
  { eexists w, _. split; [reflexivity|]. repeat split. }
  cbn [bind]. rewrite !(member_defined _ Hrequest).
  cbn [bind ret console_log].
  destruct (createClient P _ _) as [[]|e1] eqn:Hclient.
  2:{ eexists _, e1. split; [reflexivity|]. repeat split. }
  destruct Hfail as [[e He]|[Hnull|[[e He]|(request' & j & Hreq & Hloc & Htruthy & Hiter)]]].
  { congruence. }
  { congruence. }
  { congruence. }
  rewrite Hbody in Hreq. injection Hreq as <-.
  cbn [bind ret console_log Ingest.getCopernicusToken].
  rewrite locationsToProcess_rule, Hloc, Htruthy.
  unfold Ingest.iterator. rewrite Hiter.
  eexists _, _. split; [reflexivity|]. repeat split.
Qed.

(** X5.  A request (not a preflight) that fails before the loop over
    the locations -- its body does not parse or is [null], the client
    library throws, or [locations] is truthy but not iterable -- is
    answered 500 with {success: false, error, timestamp}; no insert is
    attempted, the table is unchanged and [Math.random] is not called. *)
Theorem early_failure_leaves_database_untouched
  (P : Platform) (req : Request) (w : World) :
  method req <> "OPTIONS"%string ->
  fails_early P req ->
  exists (w' : World) (e : Thrown) (timestamp : string),
    Ingest.serve P req w
    = (w', Normal (mkResponse 500 Ingest.json_headers
                     (Some (error_body e timestamp)))) /\
    untouched w w'.
Proof.
  intros Hmethod Hfail. apply String.eqb_neq in Hmethod.
  destruct (@ingest_throws_early P req w Hfail) as (w1 & e & Hrun & Hsame).
  unfold Ingest.serve. rewrite Hmethod. unfold try_catch. rewrite Hrun.
  rewrite ingest_on_error_run. eexists _, e, _. split; [reflexivity|].
  exact Hsame.
Qed.

Lemma early_failure_leaves_database_untouched_witness :
  "POST"%string <> "OPTIONS"%string /\
  fails_early Demo.platform (Demo.post (JObj [("locations", JNum 5)]%string)) /\
  exists (w' : World) (e : Thrown) (timestamp : string),
    Ingest.serve Demo.platform (Demo.post (JObj [("locations", JNum 5)]%string))
      initial_world
    = (w', Normal (mkResponse 500 Ingest.json_headers
                     (Some (error_body e timestamp)))) /\
    untouched initial_world w'.
Proof.
  assert (Hfail : fails_early Demo.platform
                    (Demo.post (JObj [("locations", JNum 5)]%string))).
  { right; right; right. exists (JObj [("locations", JNum 5)]%string), (JNum 5).
    repeat split; reflexivity. }
  split; [discriminate|]. split; [exact Hfail|].
  apply (@early_failure_leaves_database_untouched Demo.platform
           (Demo.post (JObj [("locations", JNum 5)]%string)) initial_world
           ltac:(discriminate) Hfail).
Defined.




(* ================================================================== *)
(** * The webhook: events that never reach the ingestion function *)

Lemma relay_throws_before_fetch (P : Platform) (req : Request) (w : World) :
  rejected_before_fetch P req ->
  exists w1 e, Webhook.relay P req w = (w1, Throw e) /\ untouched w w1.
Proof.
  intros [[e He]|[Hnull|[(envelope & Hbody & Henv & Hfalsy)
                        |(envelope & message & Hbody & Hmessage & Htruthy & Hwhy)]]].
  - exists w, e. split; [apply relay_unparseable_body; exact He|]. repeat split.
  - eexists _, _. unfold Webhook.relay, await. rewrite Hnull.
    split; [reflexivity|]. repeat split.
  - eexists _, _. split; [apply (relay_invalid_format P req w Hbody Henv Hfalsy)|].
    repeat split.
  - destruct Hwhy as [[e Hatob]|[(text & e & Hatob & Hparse)
                                |[(text & Hatob & Hparse)|[e Hclient]]]].
    + eexists _, e.
      split; [apply (relay_decode_failure P req w Hbody Hmessage Htruthy (or_introl Hatob))|].
      repeat split.
    + assert (Hfail : atob P (get message "data") = Throw e \/
                      (exists text, atob P (get message "data") = Normal text /\
                                    JSON_parse P text = Throw e))
        by (right; exists text; split; assumption).
      eexists _, e.
      split; [apply (relay_decode_failure P req w Hbody Hmessage Htruthy Hfail)|].
      repeat split.
    + assert (Henv : envelope <> JNull) by (intros ->; discriminate Hmessage).
      assert (Hmsg : message <> JNull) by (intros ->; discriminate Htruthy).
      unfold Webhook.relay, await. rewrite Hbody.
      cbn [bind ret console_log]. rewrite (member_defined _ Henv).
      cbn [bind ret]. rewrite Hmessage, Htruthy.
      cbn [bind ret negb]. rewrite !(member_defined _ Hmsg). cbn [bind ret].
      rewrite Hatob, Hparse.
      eexists _, _. split; [reflexivity|]. repeat split.
    + assert (Henv : envelope <> JNull) by (intros ->; discriminate Hmessage).
      assert (Hmsg : message <> JNull) by (intros ->; discriminate Htruthy).
      unfold Webhook.relay, await. rewrite Hbody.
      cbn [bind ret console_log]. rewrite (member_defined _ Henv).
      cbn [bind ret]. rewrite Hmessage, Htruthy.
      cbn [bind ret negb]. rewrite !(member_defined _ Hmsg). cbn [bind ret].
      destruct (atob P (get message "data")) as [text|e1];
        [|eexists _, _; split; [reflexivity|repeat split]].
      destruct (JSON_parse P text) as [messageData|e1];
        [|eexists _, _; split; [reflexivity|repeat split]].
      cbn [bind ret console_log].
      destruct (json_null_or_not messageData) as [->|Hdata];
        [eexists _, _; split; [reflexivity|repeat split]|].
      rewrite !(member_defined _ Hdata).
      cbn [bind ret console_log]. rewrite Hclient.
      eexists _, _. split; [reflexivity|repeat split].
Qed.

(** X7.  An event the webhook gives up on before its [fetch] -- the
    request body does not parse or is [null], the envelope has no truthy
    [message], [message.data] does not decode to JSON or decodes to
    [null], or the client library throws -- never reaches the ingestion
    function: no [fetch] is issued, no insert is attempted and the table
    is unchanged, while the caller still receives a 200 whose body is
    {success: false, error, timestamp}. *)
Theorem rejected_event_triggers_no_ingestion
  (P : Platform) (req : Request) (w : World) :
  method req <> "OPTIONS"%string ->
  rejected_before_fetch P req ->
  exists (w' : World) (e : Thrown) (timestamp : string),
    Webhook.serve P req w
    = (w', Normal (mkResponse 200 Webhook.json_headers
                     (Some (error_body e timestamp)))) /\
    untouched w w'.
Proof.
  intros Hmethod Hwhy. apply String.eqb_neq in Hmethod.
  destruct (@relay_throws_before_fetch P req w Hwhy) as (w1 & e & Hrun & Hsame).
  unfold Webhook.serve. rewrite Hmethod. unfold try_catch. rewrite Hrun.
  rewrite webhook_on_error_run. eexists _, e, _. split; [reflexivity|].
  exact Hsame.
Qed.

Lemma rejected_event_triggers_no_ingestion_witness :
  "POST"%string <> "OPTIONS"%string /\
  rejected_before_fetch (deployed Demo.platform) (Demo.post (Demo.envelope "garbage")) /\
  exists (w' : World) (e : Thrown) (timestamp : string),
    Webhook.serve (deployed Demo.platform) (Demo.post (Demo.envelope "garbage"))
      initial_world
    = (w', Normal (mkResponse 200 Webhook.json_headers
                     (Some (error_body e timestamp)))) /\
    untouched initial_world w'.
Proof.
  assert (Hwhy : rejected_before_fetch (deployed Demo.platform)
                   (Demo.post (Demo.envelope "garbage"))).
  { right; right; right. eexists _, _. split; [reflexivity|].
    split; [reflexivity|]. split; [reflexivity|].
    right; left. exists "garbage"%string, (ThrownError "Unexpected token").
    split; reflexivity. }
  split; [discriminate|]. split; [exact Hwhy|].
  apply (@rejected_event_triggers_no_ingestion (deployed Demo.platform)
           (Demo.post (Demo.envelope "garbage")) initial_world
           ltac:(discriminate) Hwhy).
Defined.

(* ================================================================== *)
(** * The webhook: events without a location *)

Lemma relayed_body_fields (P : Platform) (messageData : json) :
  exists props,
    fetch_body (relayed_call P messageData) = JObj props /\
    assoc "trigger" props = Some (JStr "pubsub") /\
    assoc "source" props = Some (JStr "google-cloud") /\
    assoc "latitude" props = opt_get (get messageData "location") "latitude" /\
    assoc "longitude" props = opt_get (get messageData "location") "longitude" /\
    assoc "locations" props = None.
Proof.
  unfold relayed_call; cbn [fetch_body]. eexists. split; [reflexivity|].
  destruct (opt_get (get messageData "location") "latitude"),
           (opt_get (get messageData "location") "longitude"),
           (get messageData "eventType"), (get messageData "satellite"),
           (get messageData "severity"); repeat split; reflexivity.
Qed.

(** X8.  An event that decodes but names no usable location (no
    [location], or a latitude or longitude that is missing or falsy),
    relayed on a deployment whose database accepts inserts: the
    ingestion function takes the branch of the five default cities, 245
    rows are stored, and the webhook answers success true with
    dataPointsProcessed 245. *)
Theorem event_without_location_ingests_defaults
  (P : Platform) (req : Request) (w : World)
  (envelope message messageData : json) (text : string) :
  method req <> "OPTIONS"%string ->
  json_body req = Normal envelope ->
  get envelope "message" = Some message ->
  truthy (Some message) = true ->
  atob P (get message "data") = Normal text ->
  JSON_parse P text = Normal messageData ->
  messageData <> JNull ->
  truthy (opt_get (get messageData "location") "latitude")
  && truthy (opt_get (get messageData "location") "longitude") = false ->
  createClient P (Deno_env_get P "SUPABASE_URL")
    (Deno_env_get P "SUPABASE_SERVICE_ROLE_KEY") = Normal tt ->
  unit_random P ->
  (forall n, db_reachable P n = true) ->
  exists (w' : World) (rows : list Row),
    Webhook.serve (deployed P) req w
    = (w', Normal (processed_response (get message "messageId")
                     (get messageData "eventType") (Some (number 245)))) /\
    satellite_data w' = satellite_data w ++ rows /\
    List.length rows = 245%nat /\
    List.length (fetch_log w') = S (List.length (fetch_log w)).
Proof.
  intros Hmethod Hbody Hmessage Htruthy Hatob Hparse Hdata Hplace Hclient HP Hdb.
  apply String.eqb_neq in Hmethod.
  unfold Webhook.serve. rewrite Hmethod. unfold try_catch.
  rewrite (@relay_to_fetch (deployed P) req w envelope message messageData text
             Hbody Hmessage Htruthy Hatob Hparse Hdata Hclient).
  set (call := relayed_call (deployed P) messageData).
  change (fetch (deployed P) call) with (ingest_endpoint P call).
  unfold ingest_endpoint.
  destruct (relayed_body_fields (deployed P) messageData)
    as (props & Hprops & Htrigger & Hsource & Hlat & Hlng & Hlocs).
  fold call in Hprops.
  assert (Hselect :
            Ingest.locationsToProcess (get (fetch_body call) "latitude")
              (get (fetch_body call) "longitude") (get (fetch_body call) "locations")
            = Some Ingest.defaultLocations).
  { rewrite locationsToProcess_rule, Hprops. cbn [get].
    rewrite Hlocs, Hlat, Hlng, Hplace. reflexivity. }
  assert (Hrun : exists w1 rows timestamp,
             Ingest.serve P (mkRequest (fetch_method call) (Normal (fetch_body call)))
               (at_fetch call w)
             = (w1, Normal (summary (get (fetch_body call) "trigger")
                              (get (fetch_body call) "source") (Some (number 5)) 245
                              timestamp)) /\
             satellite_data w1 = satellite_data w ++ rows /\
             List.length rows = 245%nat).
  { rewrite (@ingest_serve_loop P (mkRequest (fetch_method call) (Normal (fetch_body call)))
               (at_fetch call w) (fetch_body call) Ingest.defaultLocations _
               ltac:(subst call; discriminate) eq_refl
               ltac:(rewrite Hprops; discriminate) Hclient Hselect eq_refl).
    destruct (@locations_loop_stored P "demo-mode" HP Hdb _ 0%nat
                (at_loop (at_fetch call w)) (default_cities_valid eq_refl))
      as (w1 & rows & Hloop & _ & Htable & Hlen & _).
    rewrite Hloop. eexists _, rows, _. split; [reflexivity|].
    split; [exact Htable|exact Hlen]. }
  destruct Hrun as (w1 & rows & timestamp & Hrun & Htable & Hlen).
  rewrite Hrun. rewrite Hprops. cbn [get]. rewrite Htrigger, Hsource.
  cbn [summary status body reply_json object own_properties].
  exists (logged [(LOG, "Satellite data ingestion triggered:"%string);
                  (LOG, "Event processing complete:"%string)] (drew 0 1 w1)), rows.
  split; [reflexivity|].
  cbn [logged drew satellite_data fetch_log].
  split; [exact Htable|]. split; [exact Hlen|].
  pose proof (ingestion_keeps_fetch_log P
                (mkRequest (fetch_method call) (Normal (fetch_body call)))
                (at_fetch call w)) as Hfetch.
  unfold same_fetch_log in Hfetch. rewrite Hrun in Hfetch. cbn [fst] in Hfetch.
  rewrite Hfetch. unfold at_fetch. cbn [fetch_log]. rewrite length_app. cbn. lia.
Qed.

Lemma placeless_client :
  createClient placeless_platform (Deno_env_get placeless_platform "SUPABASE_URL")
    (Deno_env_get placeless_platform "SUPABASE_SERVICE_ROLE_KEY") = Normal tt.
Proof. reflexivity. Qed.

Lemma event_without_location_ingests_defaults_witness :
  "POST"%string <> "OPTIONS"%string /\
  placeless_event <> JNull /\
  unit_random placeless_platform /\
  exists (w' : World) (rows : list Row),
    Webhook.serve (deployed placeless_platform)
      (Demo.post (Demo.envelope placeless_event_text)) initial_world
    = (w', Normal (processed_response (Some (JStr "1"))
                     (Some (JStr "new_sentinel_data")) (Some (number 245)))) /\
    satellite_data w' = rows /\
    List.length rows = 245%nat.
Proof.
  split; [discriminate|]. split; [discriminate|]. split; [exact demo_unit_random|].
  destruct (@event_without_location_ingests_defaults placeless_platform
              (Demo.post (Demo.envelope placeless_event_text)) initial_world
              _ _ placeless_event placeless_event_text
              ltac:(discriminate) eq_refl eq_refl eq_refl eq_refl eq_refl
              ltac:(discriminate) eq_refl placeless_client demo_unit_random
              (fun _ => eq_refl))
    as (w' & rows & Hrun & Htable & Hlen & _).
  exists w', rows. split; [exact Hrun|]. split; [exact Htable|exact Hlen].
Defined.

(* ================================================================== *)
(** * From the ingestion function to the map *)

Section OnTheMap.

Lemma rounded_near (q : Q) :
  q - (1 # 200000000) <= rounded 8 q /\ rounded 8 q <= q + (1 # 200000000).
Proof.
  unfold rounded. change (10 ^ Z.of_nat 8)%Z with 100000000%Z.
  destruct (round_half_away_near (q * inject_Z 100000000)) as [Hlo Hhi].
  set (n := inject_Z (Storage.round_half_away (q * inject_Z 100000000))) in *.
  unfold Qdiv. change (/ inject_Z 100000000) with (1 # 100000000).
  unfold inject_Z in Hlo, Hhi. split; lra.
Qed.

Lemma Forall2_Forall_r {A B} (R : A -> B -> Prop) (Q : B -> Prop)
  (xs : list A) (ys : list B) :
  (forall x y, In x xs -> R x y -> Q y) ->
  Forall2 R xs ys -> Forall Q ys.
Proof.
  intros H F. induction F as [|x y xs ys Hxy _ IH]; constructor.
  - apply (H x); [left; reflexivity|exact Hxy].
  - apply IH. intros x' y' Hin. apply H. right. exact Hin.
Qed.

(** The row of a generated point lies in the map's box around the
    centre the point was generated for: the lattice reaches 0.045 from
    the centre, the box 0.05, and the rounding to eight decimals moves a
    coordinate by less than the difference. *)
Lemma stored_cell_in_map_box (P : Platform) (lat lng : Q) (n c i j : nat)
  (now : string) (r : Row) :
  (i < Ingest.gridSize)%nat -> (j < Ingest.gridSize)%nat ->
  stored_as now (cell P (Num lat) (Num lng) n c i j) r ->
  in_map_box lat lng r = true.
Proof.
  intros Hi Hj Hstored.
  destruct (cell_read_back Hstored) as ((la & lo & Hla & Hlo & Hrla & Hrlo & _) & _).
  change (latitude (cell P (Num lat) (Num lng) n c i j))
    with (Num (lat - Ingest.radius + Ingest.of_nat i * Ingest.step)) in Hla.
  change (longitude (cell P (Num lat) (Num lng) n c i j))
    with (Num (lng - Ingest.radius + Ingest.of_nat j * Ingest.step)) in Hlo.
  injection Hla as <-. injection Hlo as <-.
  assert (Hstep : Ingest.step == 0.015) by reflexivity.
  assert (Hradius : Ingest.radius == 0.045) by reflexivity.
  assert (Hi' : 0 <= Ingest.of_nat i /\ Ingest.of_nat i <= 6).
  { unfold Ingest.of_nat, Ingest.gridSize in *. split.
    - change 0 with (inject_Z 0). rewrite <- Zle_Qle. lia.
    - change 6 with (inject_Z 6). rewrite <- Zle_Qle. lia. }
  assert (Hj' : 0 <= Ingest.of_nat j /\ Ingest.of_nat j <= 6).
  { unfold Ingest.of_nat, Ingest.gridSize in *. split.
    - change 0 with (inject_Z 0). rewrite <- Zle_Qle. lia.
    - change 6 with (inject_Z 6). rewrite <- Zle_Qle. lia. }
  destruct (rounded_near (lat - Ingest.radius + Ingest.of_nat i * Ingest.step))
    as [Hla1 Hla2].
  destruct (rounded_near (lng - Ingest.radius + Ingest.of_nat j * Ingest.step))
    as [Hlo1 Hlo2].
  rewrite <- Hrla in Hla1, Hla2. rewrite <- Hrlo in Hlo1, Hlo2.
  rewrite Hstep, Hradius in Hla1, Hla2, Hlo1, Hlo2.
  unfold in_map_box, Storage.in_box.
  rewrite !andb_true_iff, !Qle_bool_iff. repeat split; lra.
Qed.

Lemma filter_all {A} (f : A -> bool) (l : list A) :
  Forall (fun x => f x = true) l -> filter f l = l.
Proof.
  induction 1 as [|x l Hx _ IH]; [reflexivity|].
  cbn [filter]. rewrite Hx, IH. reflexivity.
Qed.

End OnTheMap.

(** X9.  A request that names one location by a non-zero [latitude]
    and [longitude] on the globe (and no [locations]), on a database
    that accepts inserts: 49 rows are stored and every one of them lies
    in the box of 0.05 degrees that the map queries around the same
    centre.  So the map centred on the ingested location receives all
    the new rows whenever at most 51 older rows lie in that box (the
    query keeps 100 rows). *)
Theorem ingested_location_is_on_the_map
  (P : Platform) (req : Request) (w : World) (request : json) (lat lng : Q) :
  method req <> "OPTIONS"%string ->
  json_body req = Normal request ->
  truthy (get request "locations") = false ->
  get request "latitude" = Some (JNum lat) ->
  get request "longitude" = Some (JNum lng) ->
  ~ lat == 0 -> ~ lng == 0 ->
  valid_centre lat lng ->
  createClient P (Deno_env_get P "SUPABASE_URL")
    (Deno_env_get P "SUPABASE_SERVICE_ROLE_KEY") = Normal tt ->
  unit_random P ->
  (forall n, db_reachable P n = true) ->
  exists (w' : World) (rows : list Row) (timestamp : string),
    Ingest.serve P req w
    = (w', Normal (summary (get request "trigger") (get request "source")
                     (Some (number 1)) 49 timestamp)) /\
    satellite_data w' = satellite_data w ++ rows /\
    List.length rows = 49%nat /\
    Forall (fun r => in_map_box lat lng r = true) rows /\
    ((List.length (filter (in_map_box lat lng) (satellite_data w)) <= 51)%nat ->
     forall r, In r rows ->
       In r (RiskMap.fetchSatelliteData lat lng (satellite_data w'))).
Proof.
  intros Hmethod Hbody Hlocations Hlat Hlng Hlat0 Hlng0 Hcentre Hclient HP Hdb.
  assert (Hrequest : request <> JNull) by (intros ->; discriminate Hlat).
  assert (Hselect :
            Ingest.locationsToProcess (get request "latitude") (get request "longitude")
              (get request "locations") = Some (JArr [Ingest.location lat lng])).
  { rewrite locationsToProcess_rule, Hlocations, Hlat, Hlng. cbn [truthy].
    destruct (Qeq_bool lat 0) eqn:Elat; [apply Qeq_bool_iff in Elat; contradiction|].
    destruct (Qeq_bool lng 0) eqn:Elng; [apply Qeq_bool_iff in Elng; contradiction|].
    reflexivity. }
  rewrite (@ingest_serve_loop P req w request (JArr [Ingest.location lat lng])
             [Ingest.location lat lng] Hmethod Hbody Hrequest Hclient Hselect eq_refl).
  cbn [for_of].
  destruct (@process_valid P "demo-mode" (Ingest.location lat lng) lat lng 0%nat
              (at_loop w) HP (Hdb _) eq_refl eq_refl (valid_centre_storable Hcentre))
    as (rows & Hrun & Hstored).
  erewrite bind_normal by exact Hrun. cbn [ret].
  assert (Hlen : List.length rows = 49%nat).
  { apply Forall2_length_eq in Hstored. rewrite <- Hstored. apply lattice_length. }
  assert (Hbox : Forall (fun r => in_map_box lat lng r = true) rows).
  { apply Forall2_Forall_r with (2 := Hstored).
    intros p r Hin Hpr. apply in_lattice in Hin.
    destruct Hin as (i & j & Hi & Hj & ->).
    apply (stored_cell_in_map_box Hi Hj Hpr). }
  eexists _, rows, _. split; [reflexivity|].
  cbn [logged drew inserted at_insert at_loop satellite_data].
  split; [reflexivity|]. split; [exact Hlen|]. split; [exact Hbox|].
  intros Hold r Hin. unfold RiskMap.fetchSatelliteData.
  apply select_box_complete.
  - apply in_or_app. right. exact Hin.
  - apply (proj1 (Forall_forall _ _) Hbox). exact Hin.
  - change (Storage.in_box (lat - 0.05) (lat + 0.05) (lng - 0.05) (lng + 0.05))
      with (in_map_box lat lng).
    rewrite filter_app, length_app.
    rewrite (filter_all _ Hbox), Hlen. lia.
Qed.

Lemma ingested_location_is_on_the_map_witness :
  "POST"%string <> "OPTIONS"%string /\
  unit_random Demo.platform /\
  exists (w' : World) (rows : list Row) (timestamp : string),
    Ingest.serve Demo.platform
      (Demo.post (JObj [("latitude", JNum 40.7128); ("longitude", JNum (-74.006))]%string))
      initial_world
    = (w', Normal (summary None None (Some (number 1)) 49 timestamp)) /\
    List.length rows = 49%nat /\
    forall r, In r rows ->
      In r (RiskMap.fetchSatelliteData 40.7128 (-74.006) (satellite_data w')).
Proof.
  split; [discriminate|]. split; [exact demo_unit_random|].
  destruct (@ingested_location_is_on_the_map Demo.platform
              (Demo.post (JObj [("latitude", JNum 40.7128);
                                ("longitude", JNum (-74.006))]%string))
              initial_world _ 40.7128 (-74.006)
              ltac:(discriminate) eq_refl eq_refl eq_refl eq_refl
              ltac:(intros H; discriminate H) ltac:(intros H; discriminate H)
              ltac:(unfold valid_centre; lra)
              demo_client demo_unit_random (fun _ => eq_refl))
    as (w' & rows & timestamp & Hrun & _ & Hlen & _ & Hmap).
  exists w', rows, timestamp.
  split; [exact Hrun|]. split; [exact Hlen|].
  apply Hmap. cbn. lia.
Defined.

(* ================================================================== *)
(** * The map's overlay *)

Section Overlay.




End Overlay.





(* ================================================================== *)
(** * Which coordinates are stored *)

Lemma fits_columns_dec (lat lng : Q) :
  fits_columns lat lng \/ ~ fits_columns lat lng.
Proof.
  unfold fits_columns.
  destruct (Qlt_le_dec (-99.954999995) lat); [|right; intros [[? ?] _]; lra].
  destruct (Qlt_le_dec lat 99.954999995); [|right; intros [[? ?] _]; lra].
  destruct (Qlt_le_dec (-999.954999995) lng); [|right; intros [_ [? ?]]; lra].
  destruct (Qlt_le_dec lng 999.954999995); [|right; intros [_ [? ?]]; lra].
  left. repeat split; assumption.
Qed.

(** X12.  The only check on coordinates is the capacity of their
    columns.  A request that names one location by numeric, non-zero
    [latitude] and [longitude] (and no [locations]), on a database that
    accepts inserts, is answered with the 200 summary, success true and
    locationsProcessed 1 whatever the coordinates are.  Its 49 rows are
    stored whenever |latitude| <= 99.95 and |longitude| <= 999.95 -- so
    a latitude beyond 90 degrees is accepted --, and nothing is stored
    (dataPointsInserted 0) whenever |latitude| >= 99.96 or
    |longitude| >= 999.96: some lattice point then overflows
    DECIMAL(10, 8) or DECIMAL(11, 8) and the insert is refused whole. *)
Theorem coordinates_are_checked_only_by_column_capacity
  (P : Platform) (req : Request) (w : World) (request : json) (lat lng : Q) :
  method req <> "OPTIONS"%string ->
  json_body req = Normal request ->
  truthy (get request "locations") = false ->
  get request "latitude" = Some (JNum lat) ->
  get request "longitude" = Some (JNum lng) ->
  ~ lat == 0 -> ~ lng == 0 ->
  createClient P (Deno_env_get P "SUPABASE_URL")
    (Deno_env_get P "SUPABASE_SERVICE_ROLE_KEY") = Normal tt ->
  unit_random P ->
  (forall n, db_reachable P n = true) ->
  exists (w' : World) (timestamp : string) (inserted_points : nat),
    Ingest.serve P req w
    = (w', Normal (summary (get request "trigger") (get request "source")
                     (Some (number 1)) inserted_points timestamp)) /\
    List.length (satellite_data w')
    = (List.length (satellite_data w) + inserted_points)%nat /\
    (storable_centre lat lng -> inserted_points = 49%nat) /\
    (overflowing_centre lat lng -> inserted_points = 0%nat).
Proof.
  intros Hmethod Hbody Hlocations Hlat Hlng Hlat0 Hlng0 Hclient HP Hdb.
  assert (Hrequest : request <> JNull) by (intros ->; discriminate Hlat).
  assert (Hselect :
            Ingest.locationsToProcess (get request "latitude") (get request "longitude")
              (get request "locations") = Some (JArr [Ingest.location lat lng])).
  { rewrite locationsToProcess_rule, Hlocations, Hlat, Hlng. cbn [truthy].
    destruct (Qeq_bool lat 0) eqn:Elat; [apply Qeq_bool_iff in Elat; contradiction|].
    destruct (Qeq_bool lng 0) eqn:Elng; [apply Qeq_bool_iff in Elng; contradiction|].
    reflexivity. }
  rewrite (@ingest_serve_loop P req w request (JArr [Ingest.location lat lng])
             [Ingest.location lat lng] Hmethod Hbody Hrequest Hclient Hselect eq_refl).
  cbn [for_of].
  destruct (fits_columns_dec lat lng) as [Hin|Hout].
  - destruct (@process_valid P "demo-mode" (Ingest.location lat lng) lat lng 0%nat
                (at_loop w) HP (Hdb _) eq_refl eq_refl Hin)
      as (rows & Hrun & Hstored).
    erewrite bind_normal by exact Hrun. cbn [ret].
    eexists _, _, 49%nat. split; [reflexivity|].
    cbn [logged drew inserted at_insert at_loop satellite_data].
    split; [|split].
    + rewrite length_app. apply Forall2_length_eq in Hstored.
      rewrite <- Hstored, lattice_length. reflexivity.
    + reflexivity.
    + intros Hover. apply overflowing_centre_does_not_fit in Hover. contradiction.
  - assert (Hwhy : db_reachable P (List.length (insert_log (at_loop w))) = false \/
                   ToNumber P (get (Ingest.location lat lng) "lat") = NaN \/
                   ToNumber P (get (Ingest.location lat lng) "lng") = NaN \/
                   (exists lat' lng',
                       get (Ingest.location lat lng) "lat" = Some (JNum lat') /\
                       get (Ingest.location lat lng) "lng" = Some (JNum lng') /\
                       ~ fits_columns lat' lng')).
    { right; right; right. exists lat, lng. repeat split; try reflexivity. exact Hout. }
    erewrite bind_normal
      by (apply (@process_refused P "demo-mode" (Ingest.location lat lng) 0%nat
                   (at_loop w) ltac:(discriminate) Hwhy)).
    cbn [ret].
    eexists _, _, 0%nat. split; [reflexivity|].
    cbn [logged drew inserted at_insert at_loop satellite_data].
    split; [rewrite app_nil_r; lia|]. split; [|reflexivity].
    intros Hstorable. apply storable_centre_fits in Hstorable. contradiction.
Qed.

Lemma coordinates_are_checked_only_by_column_capacity_witness :
  "POST"%string <> "OPTIONS"%string /\
  unit_random Demo.platform /\
  exists (w' : World) (timestamp : string),
    Ingest.serve Demo.platform
      (Demo.post (JObj [("latitude", JNum 95); ("longitude", JNum 10)]%string))
      initial_world
    = (w', Normal (summary None None (Some (number 1)) 49 timestamp)) /\
    List.length (satellite_data w') = 49%nat.
Proof.
  split; [discriminate|]. split; [exact demo_unit_random|].
  destruct (@coordinates_are_checked_only_by_column_capacity Demo.platform
              (Demo.post (JObj [("latitude", JNum 95); ("longitude", JNum 10)]%string))
              initial_world _ 95 10
              ltac:(discriminate) eq_refl eq_refl eq_refl eq_refl
              ltac:(intros H; discriminate H) ltac:(intros H; discriminate H)
              demo_client demo_unit_random (fun _ => eq_refl))
    as (w' & timestamp & n & Hrun & Hlen & Hin & _).
  assert (Hn : n = 49%nat)
    by (apply Hin; unfold storable_centre; repeat split; lra).
  subst n. exists w', timestamp. split; [exact Hrun|exact Hlen].
Defined.
